(** * discord_server_watcher: change detection and notification core

    A shallow embedding of [discord_server_watcher.py]: the registry
    fetch, the identity resolver [_key], the watch filter, the state
    store ([load_state], [save_state]), the poll cycle [poller] and the
    [/status] command, followed by the properties of the design document
    that can be settled on them.

    Conventions of the embedding.
    - A Python [str] is a [string]: one [ascii] per character, so the
      model covers text whose code points are below 256; the order on
      strings is the code-point order, as in Python.
    - A JSON number is an integer ([Z]); numbers with a fraction or an
      exponent (Python floats) are outside the model.
    - An exception is a value of [exn]; a computation that may raise
      returns a [result].
    - The Discord channel, the logger, the state file and the HTTP
      response are the environment: what the bot does to them is
      recorded in a [world], what they answer is an input of the cycle. *)

From Stdlib Require Import ZArith String Ascii List Lia.
From stdpp Require Import base decidable countable gmap sets list strings sorting.

Set Warnings "-register-all".

Local Open Scope string_scope.
Local Open Scope Z_scope.
Local Open Scope list_scope.

(** ** Python values and the builtins the watcher relies on *)

Module Py.

Inductive exn : Type :=
| TypeError          (* not iterable, unhashable, unorderable, int(None) *)
| ValueError         (* int("abc"), unpacking a tuple of the wrong length *)
| AttributeError     (* [s.get] on a value that is not a dict *)
| TimeoutError       (* the request timed out *)
| ClientError        (* aiohttp transport error *)
| ClientResponseError (* [raise_for_status] on a status of 400 or more *)
| ContentTypeError.  (* the body is not JSON *)

Inductive result (A : Type) : Type :=
| Ok (a : A)
| Raise (e : exn).
Arguments Ok {A} a.
Arguments Raise {A} e.

Definition bind {A B} (r : result A) (k : A -> result B) : result B :=
  match r with
  | Ok a => k a
  | Raise e => Raise e
  end.

Definition is_ok {A} (r : result A) : bool :=
  match r with Ok _ => true | Raise _ => false end.

(** [for x in xs] with a body that may raise: the first exception ends
    the loop. *)
Fixpoint mapM {A B} (f : A -> result B) (xs : list A) : result (list B) :=
  match xs with
  | [] => Ok []
  | x :: xs' =>
      bind (f x) (fun y => bind (mapM f xs') (fun ys => Ok (y :: ys)))
  end.

(** What [json.load] and [resp.json()] return.  An object is the list
    of the members of the parsed dict, one per key, in insertion
    order. *)
Inductive json : Type :=
| JNull
| JBool (b : bool)
| JInt (n : Z)
| JStr (s : string)
| JArr (xs : list json)
| JObj (kvs : list (string * json)).

Fixpoint assoc (k : string) (kvs : list (string * json)) : option json :=
  match kvs with
  | [] => None
  | (k', v) :: rest => if String.eqb k k' then Some v else assoc k rest
  end.

(** [s.get(k, d)]: only a dict has [get]. *)
Definition get (s : json) (k : string) (d : json) : result json :=
  match s with
  | JObj kvs => Ok (default d (assoc k kvs))
  | _ => Raise AttributeError
  end.

(** [iter(v)]: a list yields its items, a dict its keys, a string its
    characters; nothing else is iterable. *)
Definition iter (v : json) : result (list json) :=
  match v with
  | JArr xs => Ok xs
  | JObj kvs => Ok (map (fun kv => JStr (fst kv)) kvs)
  | JStr s => Ok (map (fun c => JStr (String c EmptyString)) (list_ascii_of_string s))
  | JNull | JBool _ | JInt _ => Raise TypeError
  end.

(** Truth value of a value ([if v:], [not v]). *)
Definition truthy (v : json) : bool :=
  match v with
  | JNull => false
  | JBool b => b
  | JInt n => negb (n =? 0)
  | JStr s => negb (String.eqb s "")
  | JArr xs => match xs with [] => false | _ => true end
  | JObj kvs => match kvs with [] => false | _ => true end
  end.

(** *** [int(v)] *)

(** The characters that [int] strips from both ends of a string: tab,
    line feed, vertical tab, form feed, carriage return and space, and
    among the code points from 128 to 255 the two Unicode spaces, 133
    and 160. *)
Definition is_space (c : ascii) : bool :=
  let n := N_of_ascii c in
  ((9 <=? n) && (n <=? 13) || (n =? 32) || (n =? 133) || (n =? 160))%N.

Definition digit_of (c : ascii) : option Z :=
  let n := N_of_ascii c in
  if ((48 <=? n) && (n <=? 57))%N then Some (Z.of_N n - 48) else None.

Fixpoint lstrip (l : list ascii) : list ascii :=
  match l with
  | c :: l' => if is_space c then lstrip l' else l
  | [] => []
  end.

Definition strip (l : list ascii) : list ascii :=
  rev (lstrip (rev (lstrip l))).

(** Decimal digits, single underscores allowed between two digits.
    [seen] tells whether the previous character was a digit. *)
Fixpoint digits (acc : Z) (seen : bool) (l : list ascii) : option Z :=
  match l with
  | [] => if seen then Some acc else None
  | c :: l' =>
      match digit_of c with
      | Some d => digits (10 * acc + d) true l'
      | None =>
          if Ascii.eqb c "_"%char && seen then digits acc false l' else None
      end
  end.

Definition count_digits (l : list ascii) : nat :=
  List.length (List.filter (fun c => bool_decide (is_Some (digit_of c))) l).

(** The default limit of CPython (3.11 and later) on the number of
    digits of a decimal string converted by [int]. *)
Definition max_str_digits : nat := 4300.

Definition int_of_str (s : string) : option Z :=
  let l := strip (list_ascii_of_string s) in
  if bool_decide (count_digits l <= max_str_digits)%nat then
    match l with
    | "+"%char :: l' => digits 0 false l'
    | "-"%char :: l' => option_map Z.opp (digits 0 false l')
    | _ => digits 0 false l
    end
  else None.

Definition int (v : json) : result Z :=
  match v with
  | JInt n => Ok n
  | JBool b => Ok (Z.b2z b)
  | JStr s =>
      match int_of_str s with
      | Some n => Ok n
      | None => Raise ValueError
      end
  | JNull | JArr _ | JObj _ => Raise TypeError
  end.

(** *** Hashable values

    What can be a member of a set or an item of a tuple in a set.
    Members are kept up to Python's [==], under which [True] and [1]
    (and [False] and [0]) are one value with one hash: both are
    [ANum]. *)
Inductive atom : Type :=
| ANone
| ANum (n : Z)
| AStr (s : string).

Definition hashable (v : json) : result atom :=
  match v with
  | JNull => Ok ANone
  | JBool b => Ok (ANum (Z.b2z b))
  | JInt n => Ok (ANum n)
  | JStr s => Ok (AStr s)
  | JArr _ | JObj _ => Raise TypeError
  end.

Definition atom_json (a : atom) : json :=
  match a with
  | ANone => JNull
  | ANum n => JInt n
  | AStr s => JStr s
  end.

#[global] Instance atom_eq_dec : EqDecision atom.
Proof. solve_decision. Defined.

Definition atom_enc (a : atom) : unit + Z + string :=
  match a with
  | ANone => inl (inl tt)
  | ANum n => inl (inr n)
  | AStr s => inr s
  end.

Definition atom_dec (x : unit + Z + string) : atom :=
  match x with
  | inl (inl _) => ANone
  | inl (inr n) => ANum n
  | inr s => AStr s
  end.

#[global] Instance atom_countable : Countable atom.
Proof.
  refine (inj_countable' atom_enc atom_dec _).
  intros []; reflexivity.
Defined.

(** A tuple of hashable values. *)
Abbreviation pytuple := (list atom).

(** [a < b] on hashable values: numbers with numbers, strings with
    strings; anything else is unorderable. *)
Definition atom_lt (a b : atom) : result bool :=
  match a, b with
  | ANum m, ANum n => Ok (m <? n)
  | AStr s, AStr t => Ok (String.ltb s t)
  | _, _ => Raise TypeError
  end.

(** [a < b] on tuples: the first pair of items that differ decides;
    when one tuple is a prefix of the other, the shorter is smaller. *)
Fixpoint tuple_lt (a b : pytuple) : result bool :=
  match a, b with
  | x :: a', y :: b' => if decide (x = y) then tuple_lt a' b' else atom_lt x y
  | [], _ :: _ => Ok true
  | _, [] => Ok false
  end.

(** The order [sorted] sorts by. *)
Definition key_lt (a b : pytuple) : Prop := tuple_lt a b = Ok true.
Definition key_le (a b : pytuple) : Prop := tuple_lt b a <> Ok true.

#[global] Instance exn_eq_dec : EqDecision exn.
Proof. solve_decision. Defined.

#[global] Instance result_eq_dec `{EqDecision A} : EqDecision (result A).
Proof. solve_decision. Defined.

#[global] Instance key_le_dec : RelDecision key_le.
Proof. intros a b. unfold key_le. apply _. Defined.

Definition comparable (l : list pytuple) : bool :=
  forallb (fun a => forallb (fun b => is_ok (tuple_lt a b)) l) l.

(** [sorted(s)] on a set of tuples.  The items of a set are pairwise
    different, and a comparison sort has compared every two items that
    end up next to each other; among tuples of hashable values, two
    unorderable items always leave two unorderable neighbours, so
    [sorted] raises exactly when some pair is unorderable. *)
Definition sorted (s : gset pytuple) : result (list pytuple) :=
  let l := elements s in
  if comparable l then Ok (merge_sort key_le l) else Raise TypeError.

End Py.


(** ** Persistence: the state file *)

Module Store.
Import Py.

(** [STATE_FILE] as [load_state] finds it. *)
Inductive file : Type :=
| NoFile            (* [os.path.exists(STATE_FILE)] is false *)
| Unreadable        (* the file exists, but [open] or [json.load] raises on it *)
| Json (d : json).  (* the file holds the JSON text of [d] *)

(** What happens when [json.dump] writes into [open(..., "w")], a file
    that is never closed by the code. *)
Inductive write_outcome : Type :=
| WriteOk           (* the text is written *)
| OpenFails         (* [open(..., "w")] raises: the file is not touched *)
| DumpFails         (* the file is truncated by [open], then a write raises *)
| FlushFails.       (* the file is truncated by [open], the text stays in the
                       buffer and is lost when the file object is dropped:
                       [json.dump] returns, no exception is seen *)

(** The decimal text of [n >= 0] has at most [d] digits: [n < 10 ^ d]. *)
Fixpoint fits_digits (d : nat) (n : Z) : bool :=
  match d with
  | O => n =? 0
  | S d' => (n =? 0) || fits_digits d' (n / 10)
  end.

(** What [json.dump] can write: converting an integer of more than
    [max_str_digits] digits to text raises ValueError. *)
Definition dumpable (a : atom) : bool :=
  match a with
  | ANum n => fits_digits max_str_digits (Z.abs n)
  | ANone | AStr _ => true
  end.

(** [tuple(x)] as a member of a set: the items of [x], each hashed. *)
Definition as_tuple (x : json) : result pytuple :=
  bind (iter x) (mapM hashable).

(** [{tuple(x) for x in json.load(open(STATE_FILE, "r"))}] *)
Definition read_keys (d : json) : result (gset pytuple) :=
  bind (iter d) (fun xs =>
  bind (mapM as_tuple xs) (fun ts =>
  Ok (list_to_set ts))).

Definition load_state (f : file) : gset pytuple :=
  match f with
  | NoFile => ∅
  | Unreadable => ∅
  | Json d =>
      match read_keys d with
      | Ok keys => keys
      | Raise _ => ∅
      end
  end.

(** [list(k)] as [json.dump] writes it ([True] and [1] are one member
    of a set, written here as the number). *)
Definition key_json (k : pytuple) : json := JArr (map atom_json k).

(** [save_state(keys)]: the list is built first, the file is opened
    next, the text is written last; any exception is swallowed.  A
    number that [json.dump] cannot write ends the dump part-way, with
    the file already truncated. *)
Definition save_state (keys : gset pytuple) (o : write_outcome) (f : file) : file :=
  match sorted keys with
  | Raise _ => f
  | Ok ks =>
      match o with
      | WriteOk =>
          if forallb (forallb dumpable) ks then Json (JArr (map key_json ks))
          else Unreadable
      | OpenFails => f
      | DumpFails | FlushFails => Unreadable
      end
  end.

(** [json.dump] can write the keys: they can be ordered and every
    number is within the limit. *)
Definition storable (keys : gset pytuple) : bool :=
  match sorted keys with
  | Ok ks => forallb (forallb dumpable) ks
  | Raise _ => false
  end.

End Store.

(** ** The watcher *)

Module Watcher.
Import Py Store.

(** *** HTTP *)

(** What the registry answers to [GET {backend_url}/servers]. *)
Inductive response : Type :=
| TimedOut
| TransportError
| Status (code : Z) (body : option json). (* [None]: the body is not JSON *)

Definition fetch_servers (r : response) : result json :=
  match r with
  | TimedOut => Raise TimeoutError
  | TransportError => Raise ClientError
  | Status code body =>
      if 400 <=? code then Raise ClientResponseError
      else match body with
           | Some d => Ok d
           | None => Raise ContentTypeError
           end
  end.

(** *** Identity *)

(** [_key(s)], a tuple [(name, public_ip, port)]. *)
Definition _key (s : json) : result (json * json * Z) :=
  bind (get s "name" (JStr "")) (fun name =>
  bind (get s "public_ip" (JStr "")) (fun public_ip =>
  bind (get s "port" (JInt 0)) (fun p =>
  bind (int p) (fun port =>
  Ok (name, public_ip, port))))).

(** The tuple as a member of a set: its items are hashed. *)
Definition member (k : json * json * Z) : result pytuple :=
  let '(name, public_ip, port) := k in
  bind (hashable name) (fun n =>
  bind (hashable public_ip) (fun a =>
  Ok [n; a; ANum port])).

(** [{_key(s) for s in servers}] *)
Definition current_keys (servers : json) : result (gset pytuple) :=
  bind (iter servers) (fun l =>
  bind (mapM (fun s => bind (_key s) member) l) (fun ks =>
  Ok (list_to_set ks))).

(** *** Filter *)

(** [v in watch_names], [watch_names] a set of strings: [v] is hashed
    first. *)
Definition name_in (v : json) (names : gset string) : result bool :=
  bind (hashable v) (fun a =>
  match a with
  | AStr n => Ok (bool_decide (n ∈ names))
  | ANone | ANum _ => Ok false
  end).

Fixpoint filterM {A} (p : A -> result bool) (l : list A) : result (list A) :=
  match l with
  | [] => Ok []
  | x :: l' =>
      bind (p x) (fun keep =>
      bind (filterM p l') (fun r =>
      Ok (if keep then x :: r else r)))
  end.

(** [s.get("name") in self.watch_names] *)
Definition accepts (names : gset string) (s : json) : result bool :=
  bind (get s "name" JNull) (fun v => name_in v names).

(** [if self.watch_names: servers = [s for s in servers if ...]] *)
Definition watched (names : gset string) (servers : json) : result json :=
  if bool_decide (names = ∅) then Ok servers
  else bind (iter servers) (fun l =>
       bind (filterM (accepts names) l) (fun l' =>
       Ok (JArr l'))).

(** The keys the cycle tracks: filter, then resolve. *)
Definition tracked (names : gset string) (servers : json) : result (gset pytuple) :=
  bind (watched names servers) current_keys.

(** *** Bot state and environment *)

Record bot : Type := Bot {
  _session : bool;             (* [self._session] is set *)
  _channel : option Z;         (* the id of the channel to post in *)
  _last_seen : gset pytuple;
  watch_names : gset string
}.

Inductive kind : Type := UP | DOWN.

Record event : Type := Event {
  what : kind;
  name : atom;
  ip : atom;
  port : atom
}.

(** What a cycle does to the outside, in the order it does it. *)
Inductive effect : Type :=
| Send (ch : Z) (e : event)     (* [self._channel.send(...)] *)
| LogInfo (e : event)           (* [log.info("UP: ...")], [log.info("DOWN: ...")] *)
| LogWarning (e : exn).         (* [log.warning("Fetch error: %s", e)] *)

Record world : Type := World {
  state_file : file;
  trace : list effect
}.

Record env : Type := Env {
  answer : response;
  write : write_outcome
}.

Inductive outcome : Type :=
| Returned
| Raised (e : exn).

(** *** The poll cycle *)

(** [ups = current - self._last_seen; downs = self._last_seen - current] *)
Definition delta (last_seen current : gset pytuple) : gset pytuple * gset pytuple :=
  (current ∖ last_seen, last_seen ∖ current).

(** [name, ip, port = k] *)
Definition unpack (k : pytuple) : result (atom * atom * atom) :=
  match k with
  | [n; a; p] => Ok (n, a, p)
  | _ => Raise ValueError
  end.

(** [for name, ip, port in ks: out(...)] *)
Fixpoint announce (out : event -> effect) (kd : kind) (ks : list pytuple)
    (tr : list effect) : outcome * list effect :=
  match ks with
  | [] => (Returned, tr)
  | k :: ks' =>
      match unpack k with
      | Ok (n, a, p) => announce out kd ks' (tr ++ [out (Event kd n a p)])
      | Raise e => (Raised e, tr)
      end
  end.

(** The two loops over [sorted(ups)] and [sorted(downs)]. *)
Definition notify (out : event -> effect) (ups downs : gset pytuple)
    (tr : list effect) : outcome * list effect :=
  match sorted ups with
  | Raise e => (Raised e, tr)
  | Ok us =>
      match announce out UP us tr with
      | (Raised e, tr1) => (Raised e, tr1)
      | (Returned, tr1) =>
          match sorted downs with
          | Raise e => (Raised e, tr1)
          | Ok ds => announce out DOWN ds tr1
          end
      end
  end.

Definition sink (b : bot) : event -> effect :=
  match _channel b with
  | Some ch => Send ch
  | None => LogInfo
  end.

Definition poller (ev : env) (b : bot) (w : world) : outcome * bot * world :=
  if negb (_session b) then (Returned, b, w)
  else
    match fetch_servers (answer ev) with
    | Raise e =>
        (Returned, b, World (state_file w) (trace w ++ [LogWarning e]))
    | Ok servers =>
        match tracked (watch_names b) servers with
        | Raise e => (Raised e, b, w)
        | Ok current =>
            let '(ups, downs) := delta (_last_seen b) current in
            let changed := negb (bool_decide (ups = ∅) && bool_decide (downs = ∅)) in
            let f := if changed then save_state current (write ev) (state_file w)
                     else state_file w in
            let b' := if changed
                      then Bot (_session b) (_channel b) current (watch_names b)
                      else b in
            let '(o, tr) := notify (sink b) ups downs (trace w) in
            (o, b', World f tr)
        end
    end.

(** *** The /status command *)

(** One line of the listing: name, public_ip, port, map. *)
Definition line_of (s : json) : result (json * json * json * json) :=
  bind (get s "name" (JStr "?")) (fun n =>
  bind (get s "public_ip" (JStr "?")) (fun a =>
  bind (get s "port" (JStr "?")) (fun p =>
  bind (get s "map" (JStr "?")) (fun m =>
  Ok (n, a, p, m))))).

(** [_format_servers(servers)]: [None] is the empty string, [Some ls]
    the header followed by one line per server. *)
Definition _format_servers (servers : json) : result (option (list (json * json * json * json))) :=
  if negb (truthy servers) then Ok None
  else bind (iter servers) (fun l =>
       bind (mapM line_of l) (fun ls =>
       Ok (Some ls))).

Inductive reply : Type :=
| Listing (lines : list (json * json * json * json)) (* "**Current Servers**" and the lines *)
| NoServersFound                                     (* "No servers found." *)
| Error (e : exn).                                   (* f"Error: {e}" *)

Definition status_cmd (r : response) (b : bot) : reply :=
  match bind (fetch_servers r) (fun servers =>
        bind (watched (watch_names b) servers) _format_servers) with
  | Ok (Some ls) => Listing ls
  | Ok None => NoServersFound
  | Raise e => Error e
  end.

(** *** Start-up *)


End Watcher.

(** ** Server keys and snapshots, as the design document types them *)

Module Model.
Import Py Store Watcher.

(** A [ServerKey]: a triple (name : str, address : str, port : int). *)
Definition is_server_key (k : pytuple) : bool :=
  match k with
  | [AStr _; AStr _; ANum _] => true
  | _ => false
  end.

(** A [Snapshot]: a set of server keys. *)
Definition Snapshot (S : gset pytuple) : Prop :=
  forall k, k ∈ S -> is_server_key k = true.

(** The events among the effects of a cycle, in order. *)
Definition event_of (x : effect) : option event :=
  match x with
  | Send _ e => Some e
  | LogInfo e => Some e
  | LogWarning _ => None
  end.

Definition events (tr : list effect) : list event := omap event_of tr.

Definition key_of (e : event) : pytuple := [name e; ip e; port e].

Definition event_for (kd : kind) (k : pytuple) : option event :=
  match k with
  | [n; a; p] => Some (Event kd n a p)
  | _ => None
  end.

(** The events of one loop over a sorted list of keys. *)
Definition batch (kd : kind) (ks : list pytuple) : list event :=
  omap (event_for kd) ks.

(** The registry fetch fails: timeout, transport error, or a status
    that [raise_for_status] rejects. *)
Definition fetch_failure (r : response) : Prop :=
  r = TimedOut \/ r = TransportError \/
  exists code body, r = Status code body /\ 400 <= code.


(** A log record among the effects. *)
Definition is_log (x : effect) : bool :=
  match x with
  | Send _ _ => false
  | LogInfo _ | LogWarning _ => true
  end.

(** Two fetched entries the cycle cannot tell apart: the filter gives
    the same answer and the resolver the same member. *)
Definition same_entry (names : gset string) (x y : json) : Prop :=
  accepts names x = accepts names y /\
  bind (_key x) member = bind (_key y) member.

End Model.

(** ** Configuration and the slash commands *)

Module Commands.
Import Py Store Watcher.

(** *** Strings *)




(** [c.lower()] on code points below 256: the ASCII capitals and the
    Latin-1 capitals (192 to 222, the multiplication sign 215 apart). *)
Definition lower_char (c : ascii) : ascii :=
  let n := N_of_ascii c in
  if ((65 <=? n) && (n <=? 90) || (192 <=? n) && (n <=? 214)
      || (216 <=? n) && (n <=? 222))%N
  then ascii_of_N (n + 32) else c.

(** [s.lower()] *)
Fixpoint lower (s : string) : string :=
  match s with
  | EmptyString => EmptyString
  | String c s' => String (lower_char c) (lower s')
  end.

(** [sorted(names)] on a set of strings. *)
Definition sorted_names (names : gset string) : list string :=
  merge_sort String.le (elements names).

(** *** The configuration file *)

(** [d[k] = v] on a dict: the value of an existing key is replaced in
    place, a new key goes last. *)
Fixpoint dict_set (k : string) (v : json) (d : list (string * json))
    : list (string * json) :=
  match d with
  | [] => [(k, v)]
  | (k', v') :: d' =>
      if String.eqb k k' then (k', v) :: d' else (k', v') :: dict_set k v d'
  end.

Definition default_cfg : list (string * json) :=
  [("token", JStr ""); ("channel_id", JInt 0);
   ("backend_url", JStr "https://jacinto-server.fly.dev");
   ("poll_seconds", JInt 15); ("watch_names", JArr [])].

(** [load_cfg()]: what the file holds when it parses, the defaults
    otherwise. *)
Definition load_cfg (f : file) : json :=
  match f with
  | Json d => d
  | NoFile | Unreadable => JObj default_cfg
  end.

(** Exceptions of the command layer, besides those of [Py.exn]. *)
Inductive raised : Type :=
| PyExn (e : exn)
| OSError        (* [open] or a write fails *)
| EOFError       (* [input] reaches the end of the input *)
| SystemExit.    (* [raise SystemExit("No token provided.")] *)

(** [save_cfg(cfg)]: no exception is caught.  When the text is lost
    in the buffer of the unclosed file, [save_cfg] returns as if it
    had written. *)
Definition save_cfg (cfg : json) (o : write_outcome) (f : file) : option raised * file :=
  match o with
  | WriteOk => (None, Json cfg)
  | OpenFails => (Some OSError, f)
  | DumpFails => (Some OSError, Unreadable)
  | FlushFails => (None, Unreadable)
  end.

(** [int(cfg.get("poll_seconds", 15))] of [WatcherBot.__init__]. *)
Definition configured_poll_seconds (cfg : list (string * json)) : result Z :=
  int (default (JInt 15) (assoc "poll_seconds" cfg)).

(** [set(cfg.get("watch_names", []))] of [WatcherBot.__init__]. *)
Definition configured_watch_names (cfg : list (string * json)) : result (gset atom) :=
  bind (iter (default (JArr []) (assoc "watch_names" cfg))) (fun l =>
  bind (mapM hashable l) (fun atoms =>
  Ok (list_to_set atoms))).

(** *** The client *)

Record client : Type := Client {
  core : bot;
  cfg : list (string * json);   (* [self.cfg] *)
  poll_seconds : Z;             (* [self.poll_seconds] *)
  loop_seconds : Z              (* the interval of the [poller] loop *)
}.

(** The ephemeral replies of the commands. *)
Inductive message : Type :=
| IntervalTooLow                 (* "Interval too low. Min: 5s" *)
| IntervalSet (seconds : Z)      (* "Poll interval set to {seconds}s" *)
| Filters (names : list string)  (* "Filters: " and the names, or "<none>" *)
| ProvideName                    (* "Provide a server name." *)
| AddedFilter (n : string)
| RemovedFilter (n : string)
| UseAddRemoveList               (* "Use add/remove/list" *)
| NotTextChannel                 (* "This isn't a text channel." *)
| PostHere (ch : Z)              (* "Okay! I'll post here: ..." *)
| PostingDisabled                (* "Posting disabled. I'll log only." *)
| PostingTo (ch : Z)             (* "Posting to: ..." *)
| NoPostChannel.                 (* "No post channel set. ..." *)

(** How a command handler ends: with its reply, or with the exception
    that left it before any reply. *)
Inductive ending : Type :=
| Replied (m : message)
| Failed (e : raised).

(** [save_cfg(self.cfg)], then the reply. *)
Definition persist (c : client) (then_ : client -> client) (m : message)
    (o : write_outcome) (f : file) : ending * client * file :=
  match save_cfg (JObj (cfg c)) o f with
  | (Some e, f') => (Failed e, c, f')
  | (None, f') => (Replied m, then_ c, f')
  end.

(** [/setinterval seconds] *)
Definition setinterval_cmd (seconds : Z) (o : write_outcome) (c : client) (f : file)
    : ending * client * file :=
  if seconds <? 5 then (Replied IntervalTooLow, c, f)
  else
    let c1 := Client (core c) (dict_set "poll_seconds" (JInt seconds) (cfg c))
                     seconds (loop_seconds c) in
    persist c1
      (fun c' => Client (core c') (cfg c') (poll_seconds c') (poll_seconds c'))
      (IntervalSet seconds) o f.

(** The filter and its copy in the configuration, after [add] or
    [remove]. *)
Definition with_names (c : client) (names : gset string) : client :=
  Client (Bot (_session (core c)) (_channel (core c)) (_last_seen (core c)) names)
         (dict_set "watch_names" (JArr (map JStr (sorted_names names))) (cfg c))
         (poll_seconds c) (loop_seconds c).

(** [/watch action name] *)
Definition watch_cmd (action : string) (name : option string) (o : write_outcome)
    (c : client) (f : file) : ending * client * file :=
  let action := lower action in
  if String.eqb action "list"
  then (Replied (Filters (sorted_names (watch_names (core c)))), c, f)
  else
    match name with
    | None => (Replied ProvideName, c, f)
    | Some n =>
        if String.eqb n "" then (Replied ProvideName, c, f)
        else if String.eqb action "add"
        then persist (with_names c ({[ n ]} ∪ watch_names (core c)))
                     (fun c' => c') (AddedFilter n) o f
        else if String.eqb action "remove"
        then persist (with_names c (watch_names (core c) ∖ {[ n ]}))
                     (fun c' => c') (RemovedFilter n) o f
        else (Replied UseAddRemoveList, c, f)
    end.

(** The channel and its id in the configuration. *)
Definition with_channel (c : client) (ch : option Z) : client :=
  Client (Bot (_session (core c)) ch (_last_seen (core c)) (watch_names (core c)))
         (dict_set "channel_id" (JInt (default 0 ch)) (cfg c))
         (poll_seconds c) (loop_seconds c).

(** [/usehere], issued in the channel [ch]; [is_text] tells whether it
    is a text channel. *)
Definition usehere_cmd (is_text : bool) (ch : Z) (o : write_outcome)
    (c : client) (f : file) : ending * client * file :=
  if negb is_text then (Replied NotTextChannel, c, f)
  else persist (with_channel c (Some ch)) (fun c' => c') (PostHere ch) o f.

(** [/clearchannel] *)
Definition clearchannel_cmd (o : write_outcome) (c : client) (f : file)
    : ending * client * file :=
  persist (with_channel c None) (fun c' => c') PostingDisabled o f.

(** [/where] *)
Definition where_cmd (c : client) : message :=
  match _channel (core c) with
  | Some ch => PostingTo ch
  | None => NoPostChannel
  end.

(** *** Ready *)

(** The log lines of [on_ready]. *)
Inductive notice : Type :=
| LoggedIn
| PostingToChannel (ch : Z)
| SavedChannelNotFound.

(** [on_ready]; [lookup id] is what [self.get_channel(id)] finds: a text
    channel ([Some true]), a channel of another kind ([Some false]) or
    nothing.  The result is the client, or the exception of [int], and
    the lines logged. *)
Definition on_ready (lookup : Z -> option bool) (c : client)
    : result client * list notice :=
  let v := default (JInt 0) (assoc "channel_id" (cfg c)) in
  match int (if truthy v then v else JInt 0) with
  | Raise e => (Raise e, [LoggedIn])
  | Ok ch_id =>
      if ch_id =? 0 then (Ok c, [LoggedIn])
      else
        match lookup ch_id with
        | Some true =>
            (Ok (Client (Bot (_session (core c)) (Some ch_id) (_last_seen (core c))
                             (watch_names (core c)))
                        (cfg c) (poll_seconds c) (loop_seconds c)),
             [LoggedIn; PostingToChannel ch_id])
        | Some false | None => (Ok c, [LoggedIn; SavedChannelNotFound])
        end
  end.

(** *** Main *)



End Commands.

(** ** Invariants of the bot and its state file *)

Module Invariants.
Import Py Store Watcher Commands.

(** The shape of a key built by [_key]: three items, the port a
    number. *)
Definition resolved (k : pytuple) : Prop :=
  exists n a p, k = [n; a; ANum p].

(** The state file holds the in-memory snapshot. *)
Definition stored (b : bot) (w : world) : Prop :=
  load_state (state_file w) = _last_seen b.

(** The configuration file holds the in-memory configuration. *)
Definition saved (c : client) (f : file) : Prop :=
  load_cfg f = JObj (cfg c).

(** The configuration mirrors the filter and the interval of the
    client. *)
Definition mirrored (c : client) : Prop :=
  configured_watch_names (cfg c) = Ok (set_map AStr (watch_names (core c))) /\
  configured_poll_seconds (cfg c) = Ok (poll_seconds c).

End Invariants.

(** * Properties *)

Import Py Store Watcher Model Commands Invariants.

(** ** The order of [sorted] *)

Section order.

Lemma string_ltb_irrefl (s : string) : String.ltb s s = false.
Proof.
  unfold String.ltb. pose proof (String.compare_antisym s s) as E.
  destruct (String.compare s s); simpl in E; congruence.
Qed.

Lemma string_ltb_asym (s t : string) :
  String.ltb s t = true -> String.ltb t s = false.
Proof.
  unfold String.ltb. rewrite (String.compare_antisym t s).
  destruct (String.compare s t); simpl; congruence.
Qed.

Lemma string_ltb_connex (s t : string) :
  String.ltb s t = false -> s <> t -> String.ltb t s = true.
Proof.
  unfold String.ltb. rewrite (String.compare_antisym t s).
  destruct (String.compare s t) eqn:E; simpl; try congruence.
  intros _ Hne. apply String.compare_eq_iff in E. congruence.
Qed.

Lemma string_ltb_le (s t : string) :
  String.ltb s t = true <-> String.le s t /\ s <> t.
Proof.
  unfold String.le, String.leb, String.ltb. split.
  - destruct (String.compare s t) eqn:E; try discriminate. intros _. split; [exact I|].
    intros ->. pose proof (string_ltb_irrefl t) as Hi. unfold String.ltb in Hi.
    rewrite E in Hi. discriminate.
  - intros [Hle Hne]. destruct (String.compare s t) eqn:E; try reflexivity.
    + apply String.compare_eq_iff in E. congruence.
    + destruct Hle.
Qed.

Lemma string_ltb_trans (s t u : string) :
  String.ltb s t = true -> String.ltb t u = true -> String.ltb s u = true.
Proof.
  rewrite !string_ltb_le. intros [H1 N1] [H2 N2]. split.
  - etrans; eassumption.
  - intros ->. apply N1. apply (anti_symm String.le); assumption.
Qed.

Lemma atom_lt_asym (x y : atom) : atom_lt x y = Ok true -> atom_lt y x = Ok false.
Proof.
  destruct x, y; simpl; try discriminate; intros [= H]; f_equal.
  - apply Z.ltb_lt in H. apply Z.ltb_ge. lia.
  - by apply string_ltb_asym.
Qed.

Lemma atom_lt_connex (x y : atom) :
  atom_lt x y = Ok false -> x <> y -> atom_lt y x = Ok true.
Proof.
  destruct x, y; simpl; try discriminate; intros [= H] Hne; f_equal.
  - apply Z.ltb_ge in H. apply Z.ltb_lt. assert (n <> n0) by congruence. lia.
  - apply string_ltb_connex; congruence.
Qed.

Lemma atom_lt_trans (x y z : atom) :
  atom_lt x y = Ok true -> atom_lt y z = Ok true -> atom_lt x z = Ok true.
Proof.
  destruct x, y, z; simpl; try discriminate; intros [= H1] [= H2]; f_equal.
  - apply Z.ltb_lt in H1, H2. apply Z.ltb_lt. lia.
  - eapply string_ltb_trans; eassumption.
Qed.

Lemma atom_lt_irrefl (x : atom) : atom_lt x x <> Ok true.
Proof.
  destruct x; simpl; try discriminate.
  - rewrite Z.ltb_irrefl. discriminate.
  - rewrite string_ltb_irrefl. discriminate.
Qed.

Lemma tuple_lt_refl (a : pytuple) : tuple_lt a a = Ok false.
Proof. induction a as [|x a IH]; simpl; [done|]. by rewrite decide_True. Qed.

Lemma tuple_lt_asym (a b : pytuple) :
  tuple_lt a b = Ok true -> tuple_lt b a = Ok false.
Proof.
  revert b. induction a as [|x a IH]; intros [|y b]; simpl; try done.
  destruct (decide (x = y)) as [->|Hne].
  - rewrite decide_True by done. apply IH.
  - rewrite decide_False by congruence. apply atom_lt_asym.
Qed.

Lemma tuple_lt_connex (a b : pytuple) :
  tuple_lt a b = Ok false -> a <> b -> tuple_lt b a = Ok true.
Proof.
  revert b. induction a as [|x a IH]; intros [|y b]; simpl; try done.
  destruct (decide (x = y)) as [->|Hne].
  - rewrite decide_True by done. intros H Hab. apply IH; congruence.
  - rewrite decide_False by congruence. intros H _. by apply atom_lt_connex.
Qed.

Lemma key_lt_trans (a b c : pytuple) : key_lt a b -> key_lt b c -> key_lt a c.
Proof.
  unfold key_lt. revert b c.
  induction a as [|x a IH]; intros [|y b] [|z c]; simpl; try done.
  repeat case_decide; subst; try done.
  - apply IH.
  - intros H1 H2. by destruct (atom_lt_irrefl _ (atom_lt_trans _ _ _ H1 H2)).
  - apply atom_lt_trans.
Qed.

#[export] Instance key_lt_transitive : Transitive key_lt.
Proof. exact key_lt_trans. Qed.

#[export] Instance key_le_total : Total key_le.
Proof.
  intros a b. unfold key_le.
  destruct (decide (tuple_lt b a = Ok true)) as [H|H]; [|by left].
  right. rewrite (tuple_lt_asym _ _ H). discriminate.
Qed.

Lemma key_lt_irrefl (a : pytuple) : ~ key_lt a a.
Proof. unfold key_lt. rewrite tuple_lt_refl. discriminate. Qed.

End order.

(** ** What [sorted] returns *)

Section sorted_facts.

Lemma comparable_spec (l : list pytuple) :
  comparable l = true <->
  forall a b, a ∈ l -> b ∈ l -> is_ok (tuple_lt a b) = true.
Proof.
  unfold comparable. rewrite forallb_forall. split.
  - intros H a b Ha Hb. apply list_elem_of_In in Ha, Hb.
    specialize (H a Ha). rewrite forallb_forall in H. by apply H.
  - intros H a Ha. rewrite forallb_forall. intros b Hb.
    apply H; by apply list_elem_of_In.
Qed.

Lemma key_le_lt (a b : pytuple) :
  key_le a b -> a <> b -> is_ok (tuple_lt b a) = true -> key_lt a b.
Proof.
  unfold key_le, key_lt. intros Hle Hne Hok.
  destruct (tuple_lt b a) as [[]|] eqn:E; try done.
  apply tuple_lt_connex; [done|congruence].
Qed.

Lemma Sorted_le_lt (l : list pytuple) :
  NoDup l -> comparable l = true -> Sorted key_le l -> Sorted key_lt l.
Proof.
  rewrite comparable_spec. intros Hnd Hc Hs.
  induction Hs as [|a l Hs IH Hhd]; [constructor|].
  apply NoDup_cons in Hnd as [Hnotin Hnd]. constructor.
  - apply IH; [done|]. intros x y Hx Hy. apply Hc; by right.
  - destruct Hhd as [|b l Hab]; constructor.
    apply key_le_lt; [done| |].
    + intros ->. apply Hnotin. by left.
    + apply Hc; [right; by left|by left].
Qed.

Lemma comparable_Permutation (l l' : list pytuple) :
  l ≡ₚ l' -> comparable l = true -> comparable l' = true.
Proof.
  rewrite !comparable_spec. intros Hp H a b Ha Hb.
  apply H; by rewrite Hp.
Qed.

Lemma sorted_Ok (S : gset pytuple) (l : list pytuple) :
  sorted S = Ok l ->
  l ≡ₚ elements S /\ StronglySorted key_lt l.
Proof.
  unfold sorted. destruct (comparable (elements S)) eqn:Hc; [|done].
  intros [= <-]. split; [apply merge_sort_Permutation|].
  apply Sorted_StronglySorted; [apply _|].
  apply Sorted_le_lt.
  - rewrite merge_sort_Permutation. apply NoDup_elements.
  - eapply comparable_Permutation; [|exact Hc]. by rewrite merge_sort_Permutation.
  - apply Sorted_merge_sort. apply _.
Qed.

Lemma sorted_elem_of (S : gset pytuple) (l : list pytuple) (k : pytuple) :
  sorted S = Ok l -> k ∈ l <-> k ∈ S.
Proof. intros [Hp _]%sorted_Ok. rewrite Hp. apply elem_of_elements. Qed.

Lemma sorted_empty : sorted ∅ = Ok [].
Proof. unfold sorted. by rewrite elements_empty. Qed.

Lemma server_keys_orderable (a b : pytuple) :
  is_server_key a = true -> is_server_key b = true ->
  is_ok (tuple_lt a b) = true.
Proof.
  destruct a as [|[] [|[] [|[] []]]]; try done.
  destruct b as [|[] [|[] [|[] []]]]; try done.
  intros _ _. simpl. by repeat case_decide.
Qed.

Lemma sorted_Snapshot (S : gset pytuple) :
  Snapshot S -> exists l, sorted S = Ok l.
Proof.
  intros HS. unfold sorted.
  assert (comparable (elements S) = true) as ->; [|by eexists].
  apply comparable_spec. intros a b Ha%elem_of_elements Hb%elem_of_elements.
  apply server_keys_orderable; by apply HS.
Qed.

(** A strictly sorted list is determined by its members. *)
Lemma StronglySorted_key_lt_unique (l1 l2 : list pytuple) :
  StronglySorted key_lt l1 -> StronglySorted key_lt l2 -> l1 ≡ₚ l2 -> l1 = l2.
Proof.
  intros H1 H2 Hp. eapply (StronglySorted_unique_strong key_lt); try done.
  intros x y _ _ Hxy Hyx. destruct (key_lt_irrefl x). by etrans.
Qed.

(** On server keys the order is the lexicographic order of
    (name, address, port). *)
Lemma key_lt_server_keys (n a n' a' : string) (p p' : Z) :
  key_lt [AStr n; AStr a; ANum p] [AStr n'; AStr a'; ANum p'] <->
  String.ltb n n' = true \/
  (n = n' /\ (String.ltb a a' = true \/ (a = a' /\ p < p'))).
Proof.
  unfold key_lt. simpl. repeat case_decide; simplify_eq; simpl.
  - split; [done|]. rewrite !string_ltb_irrefl.
    intros [?|[_ [?|[_ ?]]]]; try done. lia.
  - rewrite !string_ltb_irrefl. split.
    + intros [= Hp%Z.ltb_lt]. right. split; [done|]. right. by split.
    + intros [?|[_ [?|[_ Hp%Z.ltb_lt]]]]; try done. by rewrite Hp.
  - rewrite string_ltb_irrefl. split.
    + intros [= Ha]. right. split; [done|]. by left.
    + intros [?|[_ [Ha|[? _]]]]; [done|by rewrite Ha|congruence].
  - split.
    + intros [= Hn]. by left.
    + intros [Hn|[? _]]; [by rewrite Hn|congruence].
Qed.

End sorted_facts.

(** ** The state store *)

Section store_facts.

Lemma hashable_atom_json (a : atom) : hashable (atom_json a) = Ok a.
Proof. by destruct a. Qed.

Lemma mapM_hashable_atom_json (k : pytuple) :
  mapM hashable (map atom_json k) = Ok k.
Proof.
  induction k as [|a k IH]; simpl; [done|].
  by rewrite hashable_atom_json, IH.
Qed.

Lemma as_tuple_key_json (k : pytuple) : as_tuple (key_json k) = Ok k.
Proof. unfold as_tuple, key_json. simpl. apply mapM_hashable_atom_json. Qed.

Lemma mapM_as_tuple_key_json (l : list pytuple) :
  mapM as_tuple (map key_json l) = Ok l.
Proof.
  induction l as [|k l IH]; simpl; [done|].
  by rewrite as_tuple_key_json, IH.
Qed.

Lemma read_keys_written (l : list pytuple) :
  read_keys (JArr (map key_json l)) = Ok (list_to_set l).
Proof. unfold read_keys. simpl. by rewrite mapM_as_tuple_key_json. Qed.

Lemma save_state_written (S : gset pytuple) (l : list pytuple) (f : file) :
  sorted S = Ok l -> forallb (forallb dumpable) l = true ->
  save_state S WriteOk f = Json (JArr (map key_json l)).
Proof. intros H Hd. unfold save_state. by rewrite H, Hd. Qed.

Lemma save_state_truncated (S : gset pytuple) (l : list pytuple) (f : file) :
  sorted S = Ok l -> forallb (forallb dumpable) l = false ->
  save_state S WriteOk f = Unreadable.
Proof. intros H Hd. unfold save_state. by rewrite H, Hd. Qed.


Lemma fits_digits_spec (d : nat) (n : Z) :
  0 <= n -> fits_digits d n = true <-> n < 10 ^ Z.of_nat d.
Proof.
  revert n. induction d as [|d IH]; intros n Hn.
  - change (fits_digits 0 n) with (n =? 0). rewrite Z.eqb_eq.
    change (10 ^ Z.of_nat 0) with 1. lia.
  - change (fits_digits (S d) n) with ((n =? 0) || fits_digits d (n / 10)).
    rewrite orb_true_iff, Z.eqb_eq, IH by (apply Z.div_pos; lia).
    rewrite Nat2Z.inj_succ, Z.pow_succ_r by lia.
    assert (0 < 10 ^ Z.of_nat d) as Hq by (apply Z.pow_pos_nonneg; lia).
    revert Hq. generalize (10 ^ Z.of_nat d). intros q Hq.
    pose proof (Z.div_mod n 10 ltac:(lia)) as Hdiv.
    pose proof (Z.mod_pos_bound n 10 ltac:(lia)) as Hmod.
    revert Hdiv Hmod. generalize (n / 10). generalize (n mod 10).
    intros r m Hdiv Hmod. lia.
Qed.


Lemma not_dumpable_server_key (n a : string) (p : Z) :
  10 ^ Z.of_nat max_str_digits <= Z.abs p ->
  forallb (forallb dumpable) [[AStr n; AStr a; ANum p]] = false.
Proof.
  intros H. cbv [forallb dumpable]. rewrite !andb_true_r.
  destruct (fits_digits max_str_digits (Z.abs p)) eqn:E; [|done].
  apply fits_digits_spec in E; [|apply Z.abs_nonneg]. by apply Z.lt_nge in E.
Qed.



Lemma load_written (S : gset pytuple) (l : list pytuple) :
  sorted S = Ok l -> load_state (Json (JArr (map key_json l))) = S.
Proof.
  intros [Hp _]%sorted_Ok. simpl. rewrite read_keys_written.
  apply set_eq. intros k. by rewrite elem_of_list_to_set, Hp, elem_of_elements.
Qed.

End store_facts.



(** C4, the case left out: a port of 4301 digits is a triple like any
    other, but [json.dump] raises on it after the file has been
    truncated, [save_state] swallows the exception, and [load_state]
    reads the empty set from a successful write. *)
Lemma round_trip_fails_on_long_port :
  let S : gset pytuple :=
    {[ [AStr "A"; AStr "1.1.1.1"; ANum (10 ^ Z.of_nat max_str_digits)] ]} in
  Snapshot S /\
  save_state S WriteOk NoFile = Unreadable /\
  load_state (save_state S WriteOk NoFile) = ∅ /\
  load_state (save_state S WriteOk NoFile) <> S.
Proof.
  intros S.
  assert (Snapshot S) as HS.
  { intros k Hk. apply elem_of_singleton in Hk. subst k. reflexivity. }
  assert (save_state S WriteOk NoFile = Unreadable) as Hsave.
  { destruct (sorted_Snapshot _ HS) as [l Hl].
    apply (save_state_truncated _ l); [done|].
    apply sorted_Ok in Hl as [Hp _].
    unfold S in Hp. rewrite elements_singleton in Hp.
    apply Permutation_singleton_r in Hp. subst l.
    apply not_dumpable_server_key.
    rewrite Z.abs_eq; [apply Z.le_refl|]. apply Z.pow_nonneg. lia. }
  split; [exact HS|]. rewrite Hsave. split; [reflexivity|]. split; [reflexivity|].
  change (load_state Unreadable) with (∅ : gset pytuple).
  intros Hempty. symmetry in Hempty. revert Hempty.
  apply non_empty_singleton_L.
Qed.

(** ** The diff *)

(** C1. The diff of a poll cycle: [appeared] is [current \ previous],
    [disappeared] is [previous \ current]; the diff of a snapshot with
    itself is empty on both sides, and no key is both appeared and
    disappeared. *)
Theorem delta_set_difference (previous current : gset pytuple) :
  (forall k, k ∈ (delta previous current).1 <-> k ∈ current /\ k ∉ previous) /\
  (forall k, k ∈ (delta previous current).2 <-> k ∈ previous /\ k ∉ current) /\
  delta previous current = (current ∖ previous, previous ∖ current) /\
  delta previous previous = (∅, ∅) /\
  (delta previous current).1 ## (delta previous current).2.
Proof.
  unfold delta. simpl.
  split; [intros k; apply elem_of_difference|].
  split; [intros k; apply elem_of_difference|].
  split; [reflexivity|].
  split; [by rewrite difference_diag_L|].
  apply elem_of_disjoint.
  intros k [Hc Hp]%elem_of_difference [Hp' Hc']%elem_of_difference. done.
Qed.

(** ** The notification loops *)

Section notify_facts.

Lemma events_app (tr1 tr2 : list effect) :
  events (tr1 ++ tr2) = events tr1 ++ events tr2.
Proof. unfold events. apply omap_app. Qed.

Lemma events_sink (b : bot) (es : list event) :
  events (map (sink b) es) = es.
Proof.
  unfold events, sink.
  destruct (_channel b); induction es as [|e es IH]; simpl; [done| |done|];
    by f_equal.
Qed.

Lemma batch_app (kd : kind) (ks1 ks2 : list pytuple) :
  batch kd (ks1 ++ ks2) = batch kd ks1 ++ batch kd ks2.
Proof. unfold batch. apply omap_app. Qed.

Lemma batch_kind (kd : kind) (ks : list pytuple) :
  Forall (fun e => what e = kd) (batch kd ks).
Proof.
  induction ks as [|k ks IH]; [constructor|].
  destruct k as [|n [|a [|p [|]]]]; try exact IH.
  change (batch kd ([n; a; p] :: ks)) with (Event kd n a p :: batch kd ks).
  by constructor.
Qed.

Lemma batch_keys (kd : kind) (ks : list pytuple) :
  Forall (fun k => is_ok (unpack k) = true) ks ->
  map key_of (batch kd ks) = ks.
Proof.
  induction 1 as [|k ks Hk _ IH]; [done|].
  destruct k as [|n [|a [|p [|]]]]; try done.
  change (batch kd ([n; a; p] :: ks)) with (Event kd n a p :: batch kd ks).
  simpl. by rewrite IH.
Qed.

(** A loop sends the events of the keys it gets through, in order, and
    stops at the first key that does not unpack. *)
Lemma announce_spec (out : event -> effect) (kd : kind) (ks : list pytuple)
    (tr : list effect) :
  exists ks1 ks2,
    ks = ks1 ++ ks2 /\
    Forall (fun k => is_ok (unpack k) = true) ks1 /\
    (announce out kd ks tr).2 = tr ++ map out (batch kd ks1) /\
    ((announce out kd ks tr).1 = Returned -> ks2 = []).
Proof.
  revert tr. induction ks as [|k ks IH]; intros tr.
  - exists [], []. simpl. by rewrite app_nil_r.
  - simpl. destruct (unpack k) as [[[n a] p]|e] eqn:Hk.
    + destruct (IH (tr ++ [out (Event kd n a p)])) as (ks1 & ks2 & -> & Hall & Htr & Hret).
      exists (k :: ks1), ks2. split; [done|]. split; [|split; [|done]].
      * constructor; [by rewrite Hk|done].
      * rewrite Htr. rewrite <- app_assoc. f_equal.
        destruct k as [|n' [|a' [|p' [|]]]]; try done.
        simpl in Hk. injection Hk as -> -> ->. done.
    + exists [], (k :: ks). simpl. rewrite app_nil_r. done.
Qed.

Lemma announce_triples (out : event -> effect) (kd : kind) (ks : list pytuple)
    (tr : list effect) :
  Forall (fun k => is_ok (unpack k) = true) ks ->
  announce out kd ks tr = (Returned, tr ++ map out (batch kd ks)).
Proof.
  intros H. revert tr. induction H as [|k ks Hk _ IH]; intros tr; simpl.
  - by rewrite app_nil_r.
  - destruct k as [|n [|a [|p [|]]]]; try done. simpl.
    rewrite IH. by rewrite <- app_assoc.
Qed.

Lemma StronglySorted_app_l (l1 l2 : list pytuple) :
  StronglySorted key_lt (l1 ++ l2) -> StronglySorted key_lt l1.
Proof. intros H. by apply StronglySorted_app in H as (_ & ? & _). Qed.

(** The effects of the two loops: an UP batch, then a DOWN batch, each
    in strictly increasing key order. *)
Lemma notify_spec (out : event -> effect) (ups downs : gset pytuple)
    (tr : list effect) :
  exists us ds : list pytuple,
    (notify out ups downs tr).2 = tr ++ map out (batch UP us ++ batch DOWN ds) /\
    map key_of (batch UP us) = us /\ map key_of (batch DOWN ds) = ds /\
    StronglySorted key_lt us /\ StronglySorted key_lt ds /\
    (forall k, k ∈ us -> k ∈ ups) /\ (forall k, k ∈ ds -> k ∈ downs) /\
    ((notify out ups downs tr).1 = Returned ->
       sorted ups = Ok us /\ sorted downs = Ok ds).
Proof.
  unfold notify.
  destruct (sorted ups) as [us|e] eqn:Hus.
  2:{ exists [], []. simpl. rewrite app_nil_r. repeat split; try constructor;
      try (intros k Hk; by apply elem_of_nil in Hk); done. }
  destruct (announce_spec out UP us tr) as (us1 & us2 & Hsplit & Hall1 & Htr1 & Hret1).
  destruct (announce out UP us tr) as [o1 tr1] eqn:Ha1. simpl in Htr1, Hret1.
  pose proof (sorted_Ok _ _ Hus) as [Hpu Hsu].
  assert (forall k, k ∈ us1 -> k ∈ ups) as Hin1.
  { intros k Hk. apply (sorted_elem_of _ _ _ Hus). rewrite Hsplit.
    apply elem_of_app. by left. }
  destruct o1 as [|e1].
  2:{ exists us1, []. simpl. rewrite app_nil_r. subst us tr1.
      repeat split; try constructor; try done.
      - by apply batch_keys.
      - by apply StronglySorted_app_l in Hsu.
      - intros k Hk; by apply elem_of_nil in Hk. }
  specialize (Hret1 eq_refl). subst us2. rewrite app_nil_r in Hsplit. subst us1.
  destruct (sorted downs) as [ds|e] eqn:Hds.
  2:{ exists us, []. simpl. rewrite app_nil_r. subst tr1.
      repeat split; try constructor; try done.
      - by apply batch_keys.
      - intros k Hk; by apply elem_of_nil in Hk. }
  destruct (announce_spec out DOWN ds tr1) as (ds1 & ds2 & Hsplit & Hall2 & Htr2 & Hret2).
  pose proof (sorted_Ok _ _ Hds) as [Hpd Hsd].
  exists us, ds1. rewrite Htr2. subst tr1.
  split; [by rewrite <- app_assoc, map_app|].
  split; [by apply batch_keys|]. split; [by apply batch_keys|].
  split; [done|]. split; [subst ds; by apply StronglySorted_app_l in Hsd|].
  split; [done|]. split.
  - intros k Hk. apply (sorted_elem_of _ _ _ Hds). rewrite Hsplit.
    apply elem_of_app. by left.
  - intros Hret. specialize (Hret2 Hret). subst ds2. rewrite app_nil_r in Hsplit.
    by subst ds1.
Qed.

Lemma notify_empty (out : event -> effect) (tr : list effect) :
  notify out ∅ ∅ tr = (Returned, tr).
Proof. unfold notify. by rewrite sorted_empty. Qed.

End notify_facts.

(** ** The poll cycle *)

Section poller_facts.

Lemma fetch_failure_raises (r : response) :
  fetch_failure r -> exists e, fetch_servers r = Raise e.
Proof.
  intros [->|[->|(code & body & -> & Hcode)]]; simpl; eauto.
  apply Z.leb_le in Hcode. rewrite Hcode. eauto.
Qed.

Lemma world_eta (w : world) : World (state_file w) (trace w) = w.
Proof. by destruct w. Qed.

Lemma poller_no_session (ev : env) (b : bot) (w : world) :
  _session b = false -> poller ev b w = (Returned, b, w).
Proof. intros H. unfold poller. by rewrite H. Qed.

Lemma poller_fetch_raises (ev : env) (b : bot) (w : world) (e : exn) :
  _session b = true -> fetch_servers (answer ev) = Raise e ->
  poller ev b w = (Returned, b, World (state_file w) (trace w ++ [LogWarning e])).
Proof. intros Hs Hf. unfold poller. by rewrite Hs, Hf. Qed.

Lemma poller_tracked_raises (ev : env) (b : bot) (w : world) (servers : json) (e : exn) :
  _session b = true -> fetch_servers (answer ev) = Ok servers ->
  tracked (watch_names b) servers = Raise e ->
  poller ev b w = (Raised e, b, w).
Proof. intros Hs Hf Ht. unfold poller. by rewrite Hs, Hf, Ht. Qed.

Lemma delta_empty (previous current : gset pytuple) :
  delta previous current = (∅, ∅) <-> current = previous.
Proof.
  unfold delta. split.
  - intros [= H1 H2]. apply set_eq. intros k. split; intros Hk.
    + destruct (decide (k ∈ previous)) as [|Hn]; [done|].
      assert (k ∈ current ∖ previous) as Hd by (by apply elem_of_difference).
      rewrite H1 in Hd. by apply not_elem_of_empty in Hd.
    + destruct (decide (k ∈ current)) as [|Hn]; [done|].
      assert (k ∈ previous ∖ current) as Hd by (by apply elem_of_difference).
      rewrite H2 in Hd. by apply not_elem_of_empty in Hd.
  - intros ->. by rewrite difference_diag_L.
Qed.

(** The cycle once the keys are computed and nothing has changed. *)
Lemma poller_same (ev : env) (b : bot) (w : world) (servers : json) :
  _session b = true -> fetch_servers (answer ev) = Ok servers ->
  tracked (watch_names b) servers = Ok (_last_seen b) ->
  poller ev b w = (Returned, b, w).
Proof.
  intros Hs Hf Ht. unfold poller. rewrite Hs, Hf, Ht. simpl.
  unfold delta. rewrite difference_diag_L.
  rewrite !bool_decide_eq_true_2 by done. simpl.
  rewrite notify_empty. by rewrite world_eta.
Qed.

(** The cycle once the keys are computed and something has changed. *)
Lemma poller_changed (ev : env) (b : bot) (w : world) (servers : json)
    (current : gset pytuple) :
  _session b = true -> fetch_servers (answer ev) = Ok servers ->
  tracked (watch_names b) servers = Ok current ->
  current <> _last_seen b ->
  poller ev b w =
    (let r := notify (sink b) (current ∖ _last_seen b) (_last_seen b ∖ current) (trace w) in
     (r.1, Bot (_session b) (_channel b) current (watch_names b),
      World (save_state current (write ev) (state_file w)) r.2)).
Proof.
  intros Hs Hf Ht Hne. unfold poller. rewrite Hs, Hf, Ht. simpl.
  unfold delta.
  assert (bool_decide (current ∖ _last_seen b = ∅)
          && bool_decide (_last_seen b ∖ current = ∅) = false) as ->.
  { apply andb_false_iff.
    destruct (decide (current ∖ _last_seen b = ∅)) as [H1|H1];
      [|left; by apply bool_decide_eq_false_2].
    destruct (decide (_last_seen b ∖ current = ∅)) as [H2|H2];
      [|right; by apply bool_decide_eq_false_2].
    destruct Hne. apply delta_empty. unfold delta. by rewrite H1, H2. }
  simpl. by destruct (notify _ _ _ _).
Qed.

End poller_facts.

(** C2. A cycle whose registry fetch fails (timeout, transport error or
    a status of 400 or more) ends at once: the bot, with its in-memory
    snapshot, and the state file are unchanged, no UP or DOWN event is
    emitted, and the only effect is the warning that reports the
    failure. *)
Theorem poller_fetch_failure (ev : env) (b : bot) (w : world) :
  fetch_failure (answer ev) ->
  exists e,
    fetch_servers (answer ev) = Raise e /\
    poller ev b w =
      (Returned, b,
       World (state_file w)
             (trace w ++ (if _session b then [LogWarning e] else []))) /\
    _last_seen (poller ev b w).1.2 = _last_seen b /\
    state_file (poller ev b w).2 = state_file w /\
    events (trace (poller ev b w).2) = events (trace w).
Proof.
  intros [e He]%fetch_failure_raises. exists e. split; [done|].
  assert (poller ev b w =
    (Returned, b,
     World (state_file w) (trace w ++ (if _session b then [LogWarning e] else [])))) as ->.
  { destruct (_session b) eqn:Hs.
    - by apply poller_fetch_raises.
    - rewrite app_nil_r, world_eta. by apply poller_no_session. }
  split; [done|]. simpl. split; [done|]. split; [done|].
  rewrite events_app. destruct (_session b); simpl; by rewrite app_nil_r.
Qed.

Lemma poller_fetch_failure_witness :
  fetch_failure TimedOut /\
  (poller (Env TimedOut WriteOk)
          (Bot true (Some 7) {[ [AStr "A"; AStr "1.1.1.1"; ANum 100] ]} ∅)
          (World NoFile [])).2
  = World NoFile [LogWarning TimeoutError].
Proof.
  assert (fetch_failure TimedOut) as Hf by (by left).
  split; [exact Hf|].
  destruct (poller_fetch_failure (Env TimedOut WriteOk)
              (Bot true (Some 7) {[ [AStr "A"; AStr "1.1.1.1"; ANum 100] ]} ∅)
              (World NoFile []) Hf) as (e & He & -> & _).
  simpl in He. injection He as <-. reflexivity.
Defined.

(** C3. A cycle whose delta is empty does nothing: no write to the
    state file, the in-memory snapshot stays, no event is emitted.  The
    state file changes only in a cycle whose delta is not empty. *)
Theorem poller_empty_delta (ev : env) (b : bot) (w : world) :
  (forall servers current,
     _session b = true ->
     fetch_servers (answer ev) = Ok servers ->
     tracked (watch_names b) servers = Ok current ->
     delta (_last_seen b) current = (∅, ∅) ->
     poller ev b w = (Returned, b, w)) /\
  (state_file (poller ev b w).2 <> state_file w ->
   exists servers current,
     fetch_servers (answer ev) = Ok servers /\
     tracked (watch_names b) servers = Ok current /\
     delta (_last_seen b) current <> (∅, ∅)).
Proof.
  split.
  - intros servers current Hs Hf Ht Hd. apply delta_empty in Hd. subst current.
    by eapply poller_same.
  - intros Hw. destruct (_session b) eqn:Hs.
    2:{ rewrite poller_no_session in Hw by done. done. }
    destruct (fetch_servers (answer ev)) as [servers|e] eqn:Hf.
    2:{ rewrite (poller_fetch_raises _ _ _ e) in Hw by done. done. }
    destruct (tracked (watch_names b) servers) as [current|e] eqn:Ht.
    2:{ rewrite (poller_tracked_raises _ _ _ servers e) in Hw by done. done. }
    exists servers, current. split; [done|]. split; [done|].
    intros Hd. apply delta_empty in Hd. subst current.
    rewrite (poller_same _ _ _ servers) in Hw by done. done.
Qed.

Lemma poller_empty_delta_witness :
  let ev := Env (Status 200 (Some (JArr [JObj [("name", JStr "A");
                   ("public_ip", JStr "1.1.1.1"); ("port", JInt 100)]]))) WriteOk in
  let b := Bot true (Some 7) {[ [AStr "A"; AStr "1.1.1.1"; ANum 100] ]} ∅ in
  let w := World NoFile [] in
  poller ev b w = (Returned, b, w).
Proof.
  intros ev b w.
  refine (proj1 (poller_empty_delta ev b w) _ _ eq_refl eq_refl _ _).
  - vm_compute. reflexivity.
  - vm_compute. reflexivity.
Defined.

(** ** The order of the fetched list does not matter *)

Section permutation_facts.

Lemma mapM_Permutation {A B} (f : A -> result B) (l l' : list A) (ks : list B) :
  l ≡ₚ l' -> mapM f l = Ok ks ->
  exists ks', mapM f l' = Ok ks' /\ ks ≡ₚ ks'.
Proof.
  intros Hp. revert ks. induction Hp as [|x l l' _ IH|x y l|l l' l'' _ IH1 _ IH2]; intros ks; simpl.
  - intros [= <-]. by exists [].
  - destruct (f x) as [z|]; [|done]. simpl.
    destruct (mapM f l) as [zs|] eqn:E; [|done]. simpl. intros [= <-].
    destruct (IH zs eq_refl) as (zs' & -> & Hzs). simpl.
    exists (z :: zs'). split; [done|]. by constructor.
  - destruct (f y) as [v|]; [|done]. simpl.
    destruct (f x) as [u|]; [|done]. simpl.
    destruct (mapM f l) as [zs|]; [|done]. simpl. intros [= <-].
    exists (u :: v :: zs). split; [done|]. constructor.
  - intros H. destruct (IH1 ks H) as (ks' & H' & Hp1).
    destruct (IH2 ks' H') as (ks'' & H'' & Hp2).
    exists ks''. split; [done|]. by etrans.
Qed.

Lemma filterM_Permutation {A} (p : A -> result bool) (l l' r : list A) :
  l ≡ₚ l' -> filterM p l = Ok r ->
  exists r', filterM p l' = Ok r' /\ r ≡ₚ r'.
Proof.
  intros Hp. revert r. induction Hp as [|x l l' _ IH|x y l|l l' l'' _ IH1 _ IH2]; intros r; simpl.
  - intros [= <-]. by exists [].
  - destruct (p x) as [kx|]; [|done]. simpl.
    destruct (filterM p l) as [zs|] eqn:E; [|done]. simpl. intros [= <-].
    destruct (IH zs eq_refl) as (zs' & -> & Hzs). simpl.
    eexists. split; [done|]. destruct kx; [by constructor|done].
  - destruct (p y) as [ky|]; [|done]. simpl.
    destruct (p x) as [kx|]; [|done]. simpl.
    destruct (filterM p l) as [zs|]; [|done]. simpl. intros [= <-].
    eexists. split; [done|]. destruct kx, ky; try done. constructor.
  - intros H. destruct (IH1 r H) as (r' & H' & Hp1).
    destruct (IH2 r' H') as (r'' & H'' & Hp2).
    exists r''. split; [done|]. by etrans.
Qed.

Lemma list_to_set_Permutation (l l' : list pytuple) :
  l ≡ₚ l' -> (list_to_set l : gset pytuple) = list_to_set l'.
Proof.
  intros Hp. apply set_eq. intros k. by rewrite !elem_of_list_to_set, Hp.
Qed.

Lemma current_keys_Permutation (l l' : list json) (S : gset pytuple) :
  l ≡ₚ l' -> current_keys (JArr l) = Ok S -> current_keys (JArr l') = Ok S.
Proof.
  intros Hp. unfold current_keys. simpl.
  destruct (mapM _ l) as [ks|] eqn:E; [|done]. simpl. intros [= <-].
  destruct (mapM_Permutation _ _ _ _ Hp E) as (ks' & -> & Hks). simpl.
  f_equal. symmetry. by apply list_to_set_Permutation.
Qed.

Lemma tracked_Permutation (names : gset string) (l l' : list json) (S : gset pytuple) :
  l ≡ₚ l' -> tracked names (JArr l) = Ok S -> tracked names (JArr l') = Ok S.
Proof.
  intros Hp. unfold tracked, watched. case_bool_decide; simpl.
  - by apply current_keys_Permutation.
  - destruct (filterM _ l) as [r|] eqn:E; [|done]. simpl.
    destruct (filterM_Permutation _ _ _ _ Hp E) as (r' & -> & Hr). simpl.
    by apply current_keys_Permutation.
Qed.

Lemma poller_Permutation (code : Z) (wo : write_outcome) (l l' : list json)
    (b : bot) (w : world) :
  l ≡ₚ l' ->
  (poller (Env (Status code (Some (JArr l'))) wo) b w).2
  = (poller (Env (Status code (Some (JArr l))) wo) b w).2 /\
  (poller (Env (Status code (Some (JArr l'))) wo) b w).1.2
  = (poller (Env (Status code (Some (JArr l))) wo) b w).1.2.
Proof.
  intros Hp. unfold poller. destruct (negb (_session b)); [done|]. simpl.
  destruct (400 <=? code); [done|].
  destruct (tracked (watch_names b) (JArr l)) as [S|e] eqn:E.
  - by rewrite (tracked_Permutation _ _ _ _ Hp E).
  - destruct (tracked (watch_names b) (JArr l')) as [S'|e'] eqn:E'; [|done].
    symmetry in Hp. by rewrite (tracked_Permutation _ _ _ _ Hp E') in E.
Qed.

End permutation_facts.

(** C5. In every poll cycle the events emitted are a batch of UP events
    followed by a batch of DOWN events, each batch in strictly
    increasing order of its keys, and the events do not depend on the
    order of the fetched list; on server keys the order is the
    lexicographic order of (name, address, port). *)
Theorem poller_event_order (ev : env) (b : bot) (w : world) :
  (exists ups downs : list event,
     events (trace (poller ev b w).2) = events (trace w) ++ ups ++ downs /\
     Forall (fun e => what e = UP) ups /\
     Forall (fun e => what e = DOWN) downs /\
     StronglySorted key_lt (map key_of ups) /\
     StronglySorted key_lt (map key_of downs)) /\
  (forall code l l',
     answer ev = Status code (Some (JArr l)) -> l ≡ₚ l' ->
     trace (poller (Env (Status code (Some (JArr l'))) (write ev)) b w).2
     = trace (poller ev b w).2) /\
  (forall (n a n' a' : string) (p p' : Z),
     key_lt [AStr n; AStr a; ANum p] [AStr n'; AStr a'; ANum p'] <->
     String.ltb n n' = true \/
     (n = n' /\ (String.ltb a a' = true \/ (a = a' /\ p < p')))).
Proof.
  split; [|split; [|exact key_lt_server_keys]].
  - assert (exists ups downs : list event,
              events (trace w) = events (trace w) ++ ups ++ downs /\
              Forall (fun e => what e = UP) ups /\
              Forall (fun e => what e = DOWN) downs /\
              StronglySorted key_lt (map key_of ups) /\
              StronglySorted key_lt (map key_of downs)) as Hnone.
    { exists [], []. rewrite app_nil_r. repeat split; constructor. }
    destruct (_session b) eqn:Hs.
    2:{ by rewrite poller_no_session. }
    destruct (fetch_servers (answer ev)) as [servers|e] eqn:Hf.
    2:{ rewrite (poller_fetch_raises _ _ _ e) by done. simpl.
        rewrite events_app. simpl. by rewrite app_nil_r. }
    destruct (tracked (watch_names b) servers) as [current|e] eqn:Ht.
    2:{ by rewrite (poller_tracked_raises _ _ _ servers e). }
    destruct (decide (current = _last_seen b)) as [->|Hne].
    { by rewrite (poller_same _ _ _ servers). }
    rewrite (poller_changed _ _ _ servers current) by done. simpl.
    destruct (notify_spec (sink b) (current ∖ _last_seen b)
                (_last_seen b ∖ current) (trace w))
      as (us & ds & -> & Hku & Hkd & Hsu & Hsd & _).
    exists (batch UP us), (batch DOWN ds).
    rewrite events_app, events_sink, Hku, Hkd.
    repeat split; try done; apply batch_kind.
  - intros code l l' Ha Hp. destruct ev as [a wo]. simpl in *. subst a.
    by rewrite (proj1 (poller_Permutation code wo l l' b w Hp)).
Qed.

Lemma poller_event_order_witness :
  let A := JObj [("name", JStr "A"); ("public_ip", JStr "1.1.1.1"); ("port", JInt 100)] in
  let B := JObj [("name", JStr "B"); ("public_ip", JStr "1.1.1.2"); ("port", JInt 200)] in
  let b := Bot true (Some 7) {[ [AStr "C"; AStr "1.1.1.3"; ANum 300] ]} ∅ in
  [B; A] ≡ₚ [A; B] /\
  trace (poller (Env (Status 200 (Some (JArr [A; B]))) WriteOk) b (World NoFile [])).2
  = [Send 7 (Event UP (AStr "A") (AStr "1.1.1.1") (ANum 100));
     Send 7 (Event UP (AStr "B") (AStr "1.1.1.2") (ANum 200));
     Send 7 (Event DOWN (AStr "C") (AStr "1.1.1.3") (ANum 300))].
Proof.
  intros A B b.
  assert ([B; A] ≡ₚ [A; B]) as Hp by constructor.
  split; [exact Hp|].
  etrans.
  { exact (proj1 (proj2 (poller_event_order
                    (Env (Status 200 (Some (JArr [B; A]))) WriteOk) b (World NoFile [])))
                 200 [B; A] [A; B] eq_refl Hp). }
  vm_compute. reflexivity.
Defined.

(** ** The identity resolver *)

Section key_facts.

Lemma _key_object (kvs : list (string * json)) :
  _key (JObj kvs) =
    bind (int (default (JInt 0) (assoc "port" kvs))) (fun port =>
    Ok (default (JStr "") (assoc "name" kvs),
        default (JStr "") (assoc "public_ip" kvs), port)).
Proof. reflexivity. Qed.



End key_facts.




(** ** The /status command *)

(** C9, as the code has it.  A status query issued while the registry
    fetch fails replies with the error, [Error: <exception>]; the reply
    does not depend on the last-known snapshot. *)
Theorem status_cmd_fetch_failure (r : response) (b : bot) :
  fetch_failure r ->
  (exists e, fetch_servers r = Raise e /\ status_cmd r b = Error e) /\
  (forall S, status_cmd r (Bot (_session b) (_channel b) S (watch_names b))
             = status_cmd r b).
Proof.
  intros [e He]%fetch_failure_raises. split.
  - exists e. split; [done|]. unfold status_cmd. by rewrite He.
  - intros S. reflexivity.
Qed.

Lemma status_cmd_fetch_failure_witness :
  fetch_failure (Status 503 None) /\
  status_cmd (Status 503 None)
    (Bot true (Some 7) {[ [AStr "A"; AStr "1.1.1.1"; ANum 100] ]} ∅)
  = Error ClientResponseError.
Proof.
  assert (fetch_failure (Status 503 None)) as Hf.
  { right. right. exists 503, None. split; [reflexivity|lia]. }
  split; [exact Hf|].
  destruct (proj1 (status_cmd_fetch_failure (Status 503 None)
             (Bot true (Some 7) {[ [AStr "A"; AStr "1.1.1.1"; ANum 100] ]} ∅) Hf))
    as (e & He & ->).
  simpl in He. injection He as <-. reflexivity.
Defined.

(** C9, as stated, fails: with a last-known snapshot that holds a
    server, a status query during a timeout replies [Error], the very
    reply it gives with no snapshot at all; no listing is reported. *)
Lemma status_cmd_reports_error :
  let b := Bot true (Some 7) {[ [AStr "A"; AStr "1.1.1.1"; ANum 100] ]} ∅ in
  _last_seen b <> ∅ /\
  status_cmd TimedOut b = Error TimeoutError /\
  status_cmd TimedOut (Bot true (Some 7) ∅ ∅) = status_cmd TimedOut b /\
  (forall lines, status_cmd TimedOut b <> Listing lines).
Proof.
  intros b. split; [|split; [|split]]; try reflexivity.
  - simpl. apply non_empty_singleton_L.
  - intros lines. discriminate.
Qed.

(** ** The watch filter *)

Section filter_facts.



Lemma filterM_elem_of {A} (p : A -> result bool) (l r : list A) :
  filterM p l = Ok r -> forall x, x ∈ r <-> x ∈ l /\ p x = Ok true.
Proof.
  revert r. induction l as [|y l IH]; intros r; simpl.
  - intros [= <-] x. split; [by intros ?%elem_of_nil|by intros [?%elem_of_nil _]].
  - destruct (p y) as [k|] eqn:Hy; [|done]. simpl.
    destruct (filterM p l) as [t|]; [|done]. simpl. intros [= <-] x.
    specialize (IH t eq_refl x). destruct k.
    + rewrite !elem_of_cons, IH. split.
      * intros [->|[? ?]]; [split; [by left|done]|split; [by right|done]].
      * intros [[->|?] ?]; [by left|by right].
    + rewrite elem_of_cons, IH. split.
      * intros [? ?]. split; [by right|done].
      * intros [[->|?] ?]; [congruence|done].
Qed.



End filter_facts.




(** ** A failing write *)

Section write_failure_facts.

Lemma Snapshot_difference (A B : gset pytuple) : Snapshot A -> Snapshot (A ∖ B).
Proof. intros HA k [Hk _]%elem_of_difference. by apply HA. Qed.

Lemma server_key_unpack (k : pytuple) :
  is_server_key k = true -> is_ok (unpack k) = true.
Proof. by destruct k as [|[] [|[] [|[] []]]]. Qed.

Lemma sorted_Snapshot_unpack (S : gset pytuple) (l : list pytuple) :
  Snapshot S -> sorted S = Ok l ->
  Forall (fun k => is_ok (unpack k) = true) l.
Proof.
  intros HS Hl. apply Forall_forall. intros k Hk.
  apply server_key_unpack, HS. by apply (sorted_elem_of _ _ _ Hl).
Qed.

Lemma notify_Snapshot (out : event -> effect) (ups downs : gset pytuple)
    (tr : list effect) :
  Snapshot ups -> Snapshot downs ->
  exists us ds,
    sorted ups = Ok us /\ sorted downs = Ok ds /\
    notify out ups downs tr = (Returned, tr ++ map out (batch UP us ++ batch DOWN ds)) /\
    map key_of (batch UP us) = us /\ map key_of (batch DOWN ds) = ds.
Proof.
  intros Hu Hd.
  destruct (sorted_Snapshot _ Hu) as [us Hus].
  destruct (sorted_Snapshot _ Hd) as [ds Hds].
  pose proof (sorted_Snapshot_unpack _ _ Hu Hus) as Hus3.
  pose proof (sorted_Snapshot_unpack _ _ Hd Hds) as Hds3.
  exists us, ds. split; [done|]. split; [done|]. split.
  - unfold notify. rewrite Hus, announce_triples by done.
    rewrite Hds, announce_triples by done.
    by rewrite <- app_assoc, map_app.
  - split; by apply batch_keys.
Qed.

Lemma sink_not_warning (b : bot) (es : list event) (e : exn) :
  LogWarning e ∉ map (sink b) es.
Proof.
  intros (x & Hx & _)%list_elem_of_fmap. unfold sink in Hx.
  by destruct (_channel b).
Qed.

End write_failure_facts.

(** C8, as the code has it.  In a cycle with a non-empty delta whose
    write to the state file fails (the file cannot be opened, a write
    raises or is lost, or a port is too long to be written), the
    exception is swallowed without any log record; the in-memory
    snapshot is replaced by the new one and all the UP and DOWN events
    of the cycle are delivered.  The file is left as it was when it
    could not be opened, and truncated otherwise. *)
Theorem poller_write_failure (ev : env) (b : bot) (w : world) (servers : json)
    (current : gset pytuple) :
  _session b = true ->
  fetch_servers (answer ev) = Ok servers ->
  tracked (watch_names b) servers = Ok current ->
  Snapshot (_last_seen b) -> Snapshot current ->
  delta (_last_seen b) current <> (∅, ∅) ->
  write ev <> WriteOk \/ storable current = false ->
  exists us ds,
    sorted (current ∖ _last_seen b) = Ok us /\
    sorted (_last_seen b ∖ current) = Ok ds /\
    poller ev b w =
      (Returned, Bot (_session b) (_channel b) current (watch_names b),
       World (match write ev with OpenFails => state_file w | _ => Unreadable end)
             (trace w ++ map (sink b) (batch UP us ++ batch DOWN ds))) /\
    map key_of (batch UP us) = us /\ map key_of (batch DOWN ds) = ds /\
    (forall e, LogWarning e ∉ map (sink b) (batch UP us ++ batch DOWN ds)).
Proof.
  intros Hs Hf Ht Hprev Hcur Hd Hw.
  assert (current <> _last_seen b) as Hne.
  { intros ->. apply Hd. by apply delta_empty. }
  destruct (notify_Snapshot (sink b) (current ∖ _last_seen b) (_last_seen b ∖ current)
              (trace w) (Snapshot_difference _ _ Hcur) (Snapshot_difference _ _ Hprev))
    as (us & ds & Hus & Hds & Hn & Hku & Hkd).
  exists us, ds. split; [done|]. split; [done|]. split.
  - rewrite (poller_changed _ _ _ servers current) by done. simpl.
    rewrite Hn. simpl. do 2 f_equal.
    unfold save_state, storable in *.
    destruct (sorted_Snapshot _ Hcur) as [ks Hks]. rewrite Hks in *.
    destruct Hw as [Hw|Hw]; destruct (write ev); try done. by rewrite Hw.
  - split; [done|]. split; [done|]. intros e. apply sink_not_warning.
Qed.

Lemma poller_write_failure_witness :
  let A := JObj [("name", JStr "A"); ("public_ip", JStr "1.1.1.1"); ("port", JInt 100)] in
  let ev := Env (Status 200 (Some (JArr [A]))) OpenFails in
  let b := Bot true None ∅ ∅ in
  write ev <> WriteOk /\
  exists us ds,
    poller ev b (World NoFile [])
    = (Returned, Bot true None {[ [AStr "A"; AStr "1.1.1.1"; ANum 100] ]} ∅,
       World NoFile (map LogInfo (batch UP us ++ batch DOWN ds))).
Proof.
  intros A ev b.
  assert (write ev <> WriteOk) as Hw by discriminate.
  split; [exact Hw|].
  assert (Snapshot ({[ [AStr "A"; AStr "1.1.1.1"; ANum 100] ]} : gset pytuple)) as Hcur.
  { intros k Hk. apply elem_of_singleton in Hk. subst k. reflexivity. }
  assert (Snapshot (∅ : gset pytuple)) as Hprev.
  { intros k Hk. by apply not_elem_of_empty in Hk. }
  assert (delta (_last_seen b) {[ [AStr "A"; AStr "1.1.1.1"; ANum 100] ]} <> (∅, ∅)) as Hd.
  { intros H. apply delta_empty in H. simpl in H. by apply non_empty_singleton_L in H. }
  assert (tracked (watch_names b) (JArr [A])
          = Ok {[ [AStr "A"; AStr "1.1.1.1"; ANum 100] ]}) as Ht
    by (vm_compute; reflexivity).
  destruct (poller_write_failure ev b (World NoFile []) (JArr [A]) _
              eq_refl eq_refl Ht Hprev Hcur Hd (or_introl Hw))
    as (us & ds & _ & _ & Hp & _).
  exists us, ds. exact Hp.
Defined.

(** C8, as stated, fails on "the failure is logged": a cycle with one
    new server whose write to the state file fails leaves the file
    unreadable, replaces the snapshot, sends the UP event, and writes no
    log record at all. *)
Lemma write_failure_not_logged :
  let A := JObj [("name", JStr "A"); ("public_ip", JStr "1.1.1.1"); ("port", JInt 100)] in
  let ev := Env (Status 200 (Some (JArr [A]))) DumpFails in
  let b := Bot true (Some 7) ∅ ∅ in
  poller ev b (World NoFile [])
  = (Returned, Bot true (Some 7) {[ [AStr "A"; AStr "1.1.1.1"; ANum 100] ]} ∅,
     World Unreadable [Send 7 (Event UP (AStr "A") (AStr "1.1.1.1") (ANum 100))]) /\
  existsb is_log (trace (poller ev b (World NoFile [])).2) = false.
Proof. split; vm_compute; reflexivity. Qed.

(** ** The representation of the port *)

Section port_facts.

Lemma mapM_same_entry (names : gset string) (l l' : list json) :
  Forall2 (same_entry names) l l' ->
  mapM (fun s => bind (_key s) member) l = mapM (fun s => bind (_key s) member) l'.
Proof.
  induction 1 as [|x y l l' [_ Hxy] _ IH]; simpl; [done|].
  by rewrite Hxy, IH.
Qed.

Lemma filterM_same_entry (names : gset string) (l l' : list json) :
  Forall2 (same_entry names) l l' ->
  (exists e, filterM (accepts names) l = Raise e /\
             filterM (accepts names) l' = Raise e) \/
  (exists r r', filterM (accepts names) l = Ok r /\
                filterM (accepts names) l' = Ok r' /\
                Forall2 (same_entry names) r r').
Proof.
  induction 1 as [|x y l l' Hxy _ IH]; simpl.
  - right. exists [], []. repeat split; constructor.
  - pose proof Hxy as [Ha Hk]. rewrite <- Ha.
    destruct (accepts names x) as [k|e]; simpl; [|left; eauto].
    destruct IH as [(e & -> & ->)|(r & r' & -> & -> & Hr)]; simpl; [left; eauto|].
    right. destruct k.
    + exists (x :: r), (y :: r'). split; [done|]. split; [done|]. by constructor.
    + exists r, r'. by split.
Qed.

Lemma tracked_same_entry (names : gset string) (l l' : list json) :
  Forall2 (same_entry names) l l' ->
  tracked names (JArr l) = tracked names (JArr l').
Proof.
  intros H. unfold tracked, watched. case_bool_decide; simpl.
  - unfold current_keys. simpl. by rewrite (mapM_same_entry names l l').
  - destruct (filterM_same_entry names l l' H) as [(e & -> & ->)|(r & r' & -> & -> & Hr)];
      simpl; [done|].
    unfold current_keys. simpl. by rewrite (mapM_same_entry names r r').
Qed.

Lemma same_entry_refl (names : gset string) (l : list json) :
  Forall2 (same_entry names) l l.
Proof. induction l; constructor; [by split|done]. Qed.

Lemma tracked_replace (names : gset string) (pre post : list json) (x y : json) :
  same_entry names x y ->
  tracked names (JArr (pre ++ x :: post)) = tracked names (JArr (pre ++ y :: post)).
Proof.
  intros H. apply tracked_same_entry. apply Forall2_app; [apply same_entry_refl|].
  constructor; [done|apply same_entry_refl].
Qed.

Lemma fetch_servers_ok (code : Z) (d : json) :
  code < 400 -> fetch_servers (Status code (Some d)) = Ok d.
Proof. intros H. simpl. by rewrite (proj2 (Z.leb_gt 400 code)). Qed.

End port_facts.

(** C10. The resolver converts the port with [int]: a record whose port
    is a numeric string resolves to the key of the same record with the
    port as that integer.  So a fetched list in which one entry has
    changed its port from the integer to the string, or from the string
    to the integer, tracks the same keys, and the cycle reports no
    change. *)
Theorem port_string_or_integer (kvs kvs' : list (string * json)) (s : string) (n : Z) :
  int_of_str s = Some n ->
  assoc "port" kvs = Some (JStr s) ->
  assoc "port" kvs' = Some (JInt n) ->
  assoc "name" kvs' = assoc "name" kvs ->
  assoc "public_ip" kvs' = assoc "public_ip" kvs ->
  _key (JObj kvs) = _key (JObj kvs') /\
  _key (JObj kvs) =
    Ok (default (JStr "") (assoc "name" kvs),
        default (JStr "") (assoc "public_ip" kvs), n) /\
  (forall names pre post,
     tracked names (JArr (pre ++ JObj kvs :: post))
     = tracked names (JArr (pre ++ JObj kvs' :: post))) /\
  (forall code wo b w pre post,
     _session b = true -> code < 400 ->
     tracked (watch_names b) (JArr (pre ++ JObj kvs' :: post)) = Ok (_last_seen b) ->
     poller (Env (Status code (Some (JArr (pre ++ JObj kvs :: post)))) wo) b w
     = (Returned, b, w)) /\
  (forall code wo b w pre post,
     _session b = true -> code < 400 ->
     tracked (watch_names b) (JArr (pre ++ JObj kvs :: post)) = Ok (_last_seen b) ->
     poller (Env (Status code (Some (JArr (pre ++ JObj kvs' :: post)))) wo) b w
     = (Returned, b, w)).
Proof.
  intros Hs Hp Hp' Hn Ha.
  assert (_key (JObj kvs) =
          Ok (default (JStr "") (assoc "name" kvs),
              default (JStr "") (assoc "public_ip" kvs), n)) as Hk.
  { rewrite _key_object, Hp. simpl. by rewrite Hs. }
  assert (_key (JObj kvs) = _key (JObj kvs')) as Hkk.
  { rewrite Hk, _key_object, Hp', Hn, Ha. reflexivity. }
  assert (forall names, same_entry names (JObj kvs) (JObj kvs')) as Hsame.
  { intros names. split; [|by rewrite Hkk].
    unfold accepts. simpl. by rewrite Hn. }
  assert (forall names pre post,
            tracked names (JArr (pre ++ JObj kvs :: post))
            = tracked names (JArr (pre ++ JObj kvs' :: post))) as Htr.
  { intros names pre post. by apply tracked_replace. }
  split; [done|]. split; [done|]. split; [done|]. split.
  - intros code wo b w pre post Hses Hcode Ht.
    eapply poller_same; [done|by apply fetch_servers_ok|]. by rewrite Htr.
  - intros code wo b w pre post Hses Hcode Ht.
    eapply poller_same; [done|by apply fetch_servers_ok|]. by rewrite <- Htr.
Qed.

Lemma port_string_or_integer_witness :
  let r := [("name", JStr "A"); ("public_ip", JStr "1.1.1.1"); ("port", JStr "8080")] in
  let r' := [("name", JStr "A"); ("public_ip", JStr "1.1.1.1"); ("port", JInt 8080)] in
  int_of_str "8080" = Some 8080 /\
  _key (JObj r) = _key (JObj r') /\
  _key (JObj r) = Ok (JStr "A", JStr "1.1.1.1", 8080).
Proof.
  intros r r'.
  assert (int_of_str "8080" = Some 8080) as Hs by (vm_compute; reflexivity).
  split; [exact Hs|].
  destruct (port_string_or_integer r r' "8080" 8080 Hs eq_refl eq_refl eq_refl eq_refl)
    as (H1 & H2 & _).
  split; [exact H1|exact H2].
Defined.

(** * Further properties of the poll cycle *)

Section cycle_facts.

Lemma mapM_elem_of {A B} (f : A -> result B) (l : list A) (ks : list B) :
  mapM f l = Ok ks -> forall k, k ∈ ks -> exists x, x ∈ l /\ f x = Ok k.
Proof.
  revert ks. induction l as [|x l IH]; intros ks; simpl.
  - intros [= <-] k Hk. by apply elem_of_nil in Hk.
  - destruct (f x) as [y|] eqn:Hx; [|done]. simpl.
    destruct (mapM f l) as [t|]; [|done]. simpl. intros [= <-] k Hk.
    apply elem_of_cons in Hk as [->|Hk].
    + exists x. split; [by left|done].
    + destruct (IH t eq_refl k Hk) as (x' & Hx' & Hf). exists x'. split; [by right|done].
Qed.

Lemma sorted_Raise (S : gset pytuple) (e : exn) :
  sorted S = Raise e -> e = TypeError /\ comparable (elements S) = false.
Proof.
  unfold sorted. destruct (comparable (elements S)); [done|]. by intros [= <-].
Qed.

Lemma comparable_subseteq (A B : gset pytuple) :
  A ⊆ B -> comparable (elements B) = true -> comparable (elements A) = true.
Proof.
  rewrite !comparable_spec. intros Hsub H a b Ha%elem_of_elements Hb%elem_of_elements.
  apply H; apply elem_of_elements; by apply Hsub.
Qed.

Lemma sorted_Raise_subseteq (A B : gset pytuple) (e : exn) :
  A ⊆ B -> sorted A = Raise e -> sorted B = Raise TypeError.
Proof.
  intros Hsub [_ HA]%sorted_Raise. unfold sorted.
  destruct (comparable (elements B)) eqn:HB; [|done].
  by rewrite (comparable_subseteq A B Hsub HB) in HA.
Qed.

(** The three ways a cycle goes once the session is set. *)
Lemma poller_cases (ev : env) (b : bot) (w : world) :
  _session b = true ->
  (exists e, fetch_servers (answer ev) = Raise e /\
     poller ev b w = (Returned, b, World (state_file w) (trace w ++ [LogWarning e]))) \/
  (exists servers e, fetch_servers (answer ev) = Ok servers /\
     tracked (watch_names b) servers = Raise e /\
     poller ev b w = (Raised e, b, w)) \/
  (exists servers current, fetch_servers (answer ev) = Ok servers /\
     tracked (watch_names b) servers = Ok current /\
     ((current = _last_seen b /\ poller ev b w = (Returned, b, w)) \/
      (current <> _last_seen b /\
       poller ev b w =
         (let r := notify (sink b) (current ∖ _last_seen b) (_last_seen b ∖ current) (trace w) in
          (r.1, Bot (_session b) (_channel b) current (watch_names b),
           World (save_state current (write ev) (state_file w)) r.2))))).
Proof.
  intros Hs.
  destruct (fetch_servers (answer ev)) as [servers|e] eqn:Hf.
  2:{ left. exists e. split; [done|]. by apply poller_fetch_raises. }
  destruct (tracked (watch_names b) servers) as [current|e] eqn:Ht.
  2:{ right. left. exists servers, e. split; [done|]. split; [done|].
      by eapply poller_tracked_raises. }
  right. right. exists servers, current. split; [done|]. split; [done|].
  destruct (decide (current = _last_seen b)) as [->|Hne].
  - left. split; [done|]. by eapply poller_same.
  - right. split; [done|]. by eapply poller_changed.
Qed.

Lemma notify_trace_prefix (out : event -> effect) (ups downs : gset pytuple)
    (tr : list effect) :
  tr `prefix_of` (notify out ups downs tr).2.
Proof.
  destruct (notify_spec out ups downs tr) as (us & ds & -> & _).
  by eexists.
Qed.

End cycle_facts.

Lemma poller_again (ev ev' : env) (b : bot) (w : world) (servers : json)
    (current : gset pytuple) :
  _session b = true ->
  fetch_servers (answer ev) = Ok servers ->
  tracked (watch_names b) servers = Ok current ->
  answer ev' = answer ev ->
  poller ev' (poller ev b w).1.2 (poller ev b w).2
  = (Returned, (poller ev b w).1.2, (poller ev b w).2).
Proof.
  intros Hs Hf Ht Ha.
  destruct (decide (current = _last_seen b)) as [->|Hne].
  - rewrite (poller_same ev b w servers) by done. simpl.
    apply (poller_same ev' b w servers); [done|by rewrite Ha|done].
  - rewrite (poller_changed ev b w servers current) by done. simpl.
    apply (poller_same ev' _ _ servers); [done|by rewrite Ha|done].
Qed.



(** X2. A cycle that returns delivers the delta and nothing else: the
    keys of its UP events are the keys of [current \ previous], each
    once, the keys of its DOWN events those of [previous \ current],
    each once, and the snapshot it leaves is [current]. *)
Theorem poller_delivers_delta (ev : env) (b : bot) (w : world) (servers : json)
    (current : gset pytuple) :
  _session b = true ->
  fetch_servers (answer ev) = Ok servers ->
  tracked (watch_names b) servers = Ok current ->
  (poller ev b w).1.1 = Returned ->
  exists us ds,
    trace (poller ev b w).2 = trace w ++ map (sink b) (batch UP us ++ batch DOWN ds) /\
    map key_of (batch UP us) = us /\ map key_of (batch DOWN ds) = ds /\
    us ≡ₚ elements (current ∖ _last_seen b) /\
    ds ≡ₚ elements (_last_seen b ∖ current) /\
    _last_seen (poller ev b w).1.2 = current.
Proof.
  intros Hs Hf Ht.
  destruct (decide (current = _last_seen b)) as [->|Hne].
  - rewrite (poller_same ev b w servers) by done. intros _.
    exists [], []. simpl. rewrite app_nil_r, difference_diag_L, elements_empty.
    done.
  - rewrite (poller_changed ev b w servers current) by done. simpl. intros Hret.
    destruct (notify_spec (sink b) (current ∖ _last_seen b)
                (_last_seen b ∖ current) (trace w))
      as (us & ds & Htr & Hku & Hkd & _ & _ & _ & _ & Hfull).
    destruct (Hfull Hret) as [Hus Hds].
    exists us, ds. split; [done|]. split; [done|]. split; [done|].
    split; [by apply sorted_Ok|]. split; [by apply sorted_Ok|done].
Qed.

Lemma poller_delivers_delta_witness :
  let A := JObj [("name", JStr "A"); ("public_ip", JStr "1.1.1.1"); ("port", JInt 100)] in
  let ev := Env (Status 200 (Some (JArr [A]))) WriteOk in
  let b := Bot true (Some 7) {[ [AStr "B"; AStr "1.1.1.2"; ANum 200] ]} ∅ in
  let w := World NoFile [] in
  exists us ds,
    trace (poller ev b w).2 = map (Send 7) (batch UP us ++ batch DOWN ds) /\
    us ≡ₚ elements ({[ [AStr "A"; AStr "1.1.1.1"; ANum 100] ]}
                    ∖ {[ [AStr "B"; AStr "1.1.1.2"; ANum 200] ]} : gset pytuple).
Proof.
  intros A ev b w.
  assert (tracked (watch_names b) (JArr [A])
          = Ok {[ [AStr "A"; AStr "1.1.1.1"; ANum 100] ]}) as Ht
    by (vm_compute; reflexivity).
  assert ((poller ev b w).1.1 = Returned) as Hret by (vm_compute; reflexivity).
  destruct (poller_delivers_delta ev b w (JArr [A]) _ eq_refl eq_refl Ht Hret)
    as (us & ds & Htr & _ & _ & Hus & _).
  exists us, ds. split; [exact Htr|exact Hus].
Defined.

(** X3. Once the keys of a cycle are computed the snapshot the cycle
    leaves is these keys, whether the write succeeds or fails and
    whether the notification loops return or raise. *)
Theorem poller_snapshot_is_current (ev : env) (b : bot) (w : world) (servers : json)
    (current : gset pytuple) :
  _session b = true ->
  fetch_servers (answer ev) = Ok servers ->
  tracked (watch_names b) servers = Ok current ->
  _last_seen (poller ev b w).1.2 = current.
Proof.
  intros Hs Hf Ht.
  destruct (decide (current = _last_seen b)) as [->|Hne].
  - by rewrite (poller_same ev b w servers).
  - by rewrite (poller_changed ev b w servers current).
Qed.

Lemma poller_snapshot_is_current_witness :
  let r := JObj [("name", JStr "a")] in
  let r' := JObj [("name", JInt 5)] in
  let ev := Env (Status 200 (Some (JArr [r; r']))) DumpFails in
  let b := Bot true None ∅ ∅ in
  _last_seen (poller ev b (World NoFile [])).1.2
  = {[ [AStr "a"; AStr ""; ANum 0]; [ANum 5; AStr ""; ANum 0] ]}.
Proof.
  intros r r' ev b.
  refine (poller_snapshot_is_current ev b (World NoFile []) (JArr [r; r']) _
            eq_refl eq_refl _).
  vm_compute. reflexivity.
Defined.

(** X4. A cycle never touches the session, the channel or the filter,
    and it only adds to the effects: what was sent or logged before is
    still there, in front. *)
Theorem poller_frame (ev : env) (b : bot) (w : world) :
  _session (poller ev b w).1.2 = _session b /\
  _channel (poller ev b w).1.2 = _channel b /\
  watch_names (poller ev b w).1.2 = watch_names b /\
  trace w `prefix_of` trace (poller ev b w).2.
Proof.
  destruct (_session b) eqn:Hs.
  2:{ by rewrite poller_no_session. }
  destruct (poller_cases ev b w Hs)
    as [(e & _ & ->)|[(servers & e & _ & _ & ->)|(servers & current & _ & _ &
         [[_ ->]|[_ ->]])]]; simpl; repeat split; try done.
  - by eexists.
  - apply notify_trace_prefix.
Qed.

(** ** The shape of the keys *)

Section shape_facts.

Lemma member_resolved (s : json) (k : pytuple) :
  bind (_key s) member = Ok k -> resolved k.
Proof.
  destruct (_key s) as [[[n a] p]|]; [|done]. simpl.
  destruct (hashable n) as [n'|]; [|done]. simpl.
  destruct (hashable a) as [a'|]; [|done]. simpl.
  intros [= <-]. by exists n', a', p.
Qed.

Lemma current_keys_elem_of (servers : json) (S : gset pytuple) (k : pytuple) :
  current_keys servers = Ok S -> k ∈ S ->
  exists l s, iter servers = Ok l /\ s ∈ l /\ bind (_key s) member = Ok k.
Proof.
  unfold current_keys. destruct (iter servers) as [l|]; [|done]. simpl.
  destruct (mapM _ l) as [ks|] eqn:E; [|done]. simpl. intros [= <-] Hk.
  apply elem_of_list_to_set in Hk.
  destruct (mapM_elem_of _ _ _ E k Hk) as (s & Hs & Hf).
  by exists l, s.
Qed.

Lemma resolved_unpack (k : pytuple) : resolved k -> is_ok (unpack k) = true.
Proof. by intros (n & a & p & ->). Qed.

Lemma sorted_resolved_unpack (S : gset pytuple) (l : list pytuple) :
  (forall k, k ∈ S -> resolved k) -> sorted S = Ok l ->
  Forall (fun k => is_ok (unpack k) = true) l.
Proof.
  intros HS Hl. apply Forall_forall. intros k Hk.
  apply resolved_unpack, HS. by apply (sorted_elem_of _ _ _ Hl).
Qed.

Lemma notify_resolved (out : event -> effect) (ups downs : gset pytuple)
    (tr : list effect) :
  (forall k, k ∈ ups -> resolved k) -> (forall k, k ∈ downs -> resolved k) ->
  (notify out ups downs tr).1 = Returned \/
  (notify out ups downs tr).1 = Raised TypeError.
Proof.
  intros Hu Hd. unfold notify.
  destruct (sorted ups) as [us|e] eqn:Hus.
  2:{ right. apply sorted_Raise in Hus as [-> _]. done. }
  rewrite announce_triples by (by apply (sorted_resolved_unpack ups)).
  destruct (sorted downs) as [ds|e] eqn:Hds.
  2:{ right. apply sorted_Raise in Hds as [-> _]. done. }
  rewrite announce_triples by (by apply (sorted_resolved_unpack downs)).
  by left.
Qed.

End shape_facts.

Lemma tracked_members_resolved (names : gset string) (servers : json) (S : gset pytuple) :
  tracked names servers = Ok S ->
  forall k, k ∈ S -> resolved k.
Proof.
  unfold tracked. destruct (watched names servers) as [v|]; [|done]. simpl.
  intros HS k Hk.
  destruct (current_keys_elem_of v S k HS Hk) as (l & s & _ & _ & Hf).
  by eapply member_resolved.
Qed.



(** X6. When every key of the snapshot has three items with a number
    last, so has every key of the snapshot a cycle leaves, and a cycle
    whose keys were computed returns or raises TypeError (from
    [sorted]): unpacking a key never fails. *)
Theorem poller_keeps_resolved (ev : env) (b : bot) (w : world) :
  (forall k, k ∈ _last_seen b -> resolved k) ->
  (forall k, k ∈ _last_seen (poller ev b w).1.2 -> resolved k) /\
  (forall servers current,
     fetch_servers (answer ev) = Ok servers ->
     tracked (watch_names b) servers = Ok current ->
     (poller ev b w).1.1 = Returned \/ (poller ev b w).1.1 = Raised TypeError).
Proof.
  intros Hres.
  destruct (_session b) eqn:Hs.
  2:{ rewrite poller_no_session by done. split; [done|]. intros. by left. }
  destruct (poller_cases ev b w Hs)
    as [(e & Hf & ->)|[(servers & e & Hf & Ht & ->)|(servers & current & Hf & Ht &
         [[_ ->]|[_ ->]])]]; simpl; (split; [try done|]).
  - intros servers current Hf'. congruence.
  - intros servers' current Hf' Ht'. congruence.
  - intros. by left.
  - intros k Hk. by eapply tracked_members_resolved.
  - intros _ _ _ _. apply notify_resolved.
    + intros k [Hk _]%elem_of_difference. by eapply tracked_members_resolved.
    + intros k [Hk _]%elem_of_difference. by apply Hres.
Qed.

Lemma poller_keeps_resolved_witness :
  let A := JObj [("name", JStr "A"); ("public_ip", JStr "1.1.1.1"); ("port", JInt 100)] in
  let ev := Env (Status 200 (Some (JArr [A]))) WriteOk in
  let b := Bot true (Some 7) {[ [AStr "B"; AStr "1.1.1.2"; ANum 200] ]} ∅ in
  (forall k, k ∈ _last_seen b -> resolved k) /\
  resolved [AStr "A"; AStr "1.1.1.1"; ANum 100].
Proof.
  intros A ev b.
  assert (forall k, k ∈ _last_seen b -> resolved k) as Hres.
  { intros k Hk.
    change (k ∈ ({[ [AStr "B"; AStr "1.1.1.2"; ANum 200] ]} : gset pytuple)) in Hk.
    apply elem_of_singleton in Hk. subst k. by eexists _, _, _. }
  split; [exact Hres|].
  refine (proj1 (poller_keeps_resolved ev b (World NoFile []) Hres) _ _).
  assert (_last_seen (poller ev b (World NoFile [])).1.2
          = {[ [AStr "A"; AStr "1.1.1.1"; ANum 100] ]}) as ->
    by (vm_compute; reflexivity).
  by apply elem_of_singleton.
Defined.

(** X7. With a filter that is not empty, every key a cycle tracks
    carries a name that is a string of the filter: a server whose name
    is not listed never enters the snapshot or the state file. *)
Theorem tracked_names_in_filter (names : gset string) (servers : json)
    (S : gset pytuple) :
  names <> ∅ ->
  tracked names servers = Ok S ->
  forall k, k ∈ S -> exists n a p, k = [AStr n; a; ANum p] /\ n ∈ names.
Proof.
  intros Hne. unfold tracked, watched. rewrite bool_decide_eq_false_2 by done.
  destruct (iter servers) as [l|]; [|done]. simpl.
  destruct (filterM (accepts names) l) as [r|] eqn:E; [|done]. simpl.
  intros HS k Hk.
  destruct (current_keys_elem_of (JArr r) S k HS Hk) as (r' & s & [= <-] & Hs & Hf).
  apply (filterM_elem_of _ _ _ E) in Hs as [_ Hacc].
  destruct s as [| | | | |kvs]; try done.
  revert Hacc Hf. unfold accepts, name_in. rewrite _key_object. simpl.
  destruct (assoc "name" kvs) as [[| | |n| |]|]; simpl; try done.
  intros [= Hin%bool_decide_eq_true].
  destruct (int _) as [p|]; [|done]. simpl.
  destruct (hashable _) as [a|]; [|done]. simpl. intros [= <-].
  by exists n, a, p.
Qed.

Lemma tracked_names_in_filter_witness :
  let A := JObj [("name", JStr "A"); ("public_ip", JStr "1.1.1.1"); ("port", JInt 100)] in
  let B := JObj [("name", JStr "B"); ("public_ip", JStr "1.1.1.2"); ("port", JInt 200)] in
  ({[ "A" ]} : gset string) <> ∅ /\
  exists n a p,
    [AStr "A"; AStr "1.1.1.1"; ANum 100] = [AStr n; a; ANum p] /\
    n ∈ ({[ "A" ]} : gset string).
Proof.
  intros A B.
  assert (({[ "A" ]} : gset string) <> ∅) as Hne by apply non_empty_singleton_L.
  split; [exact Hne|].
  refine (tracked_names_in_filter {[ "A" ]} (JArr [A; B])
            {[ [AStr "A"; AStr "1.1.1.1"; ANum 100] ]} Hne _ _ _).
  - vm_compute. reflexivity.
  - by apply elem_of_singleton.
Defined.

(** X8. Keys that [sorted] cannot order lose their events.  When the
    appeared keys hold two that do not compare (a name that is a number
    beside a name that is a string), the cycle has replaced the snapshot
    before [sorted] raises: the state file is not written, no event is
    emitted, and the next cycle on the same answer sees no change. *)
Theorem poller_unorderable (ev : env) (b : bot) (w : world) (servers : json)
    (current : gset pytuple) (e : exn) :
  _session b = true ->
  fetch_servers (answer ev) = Ok servers ->
  tracked (watch_names b) servers = Ok current ->
  sorted (current ∖ _last_seen b) = Raise e ->
  poller ev b w
  = (Raised TypeError, Bot (_session b) (_channel b) current (watch_names b), w) /\
  (forall ev', answer ev' = answer ev ->
     poller ev' (Bot (_session b) (_channel b) current (watch_names b)) w
     = (Returned, Bot (_session b) (_channel b) current (watch_names b), w)).
Proof.
  intros Hs Hf Ht Hsort.
  assert (current <> _last_seen b) as Hne.
  { intros ->. rewrite difference_diag_L, sorted_empty in Hsort. done. }
  assert (poller ev b w
          = (Raised TypeError, Bot (_session b) (_channel b) current (watch_names b), w))
    as Hp.
  { rewrite (poller_changed ev b w servers current) by done. simpl.
    unfold notify. rewrite Hsort. simpl.
    apply sorted_Raise in Hsort as Hsort'. destruct Hsort' as [-> _].
    unfold save_state.
    rewrite (sorted_Raise_subseteq (current ∖ _last_seen b) current TypeError)
      by (done || apply subseteq_difference_l; done).
    by rewrite world_eta. }
  split; [done|].
  intros ev' Ha.
  pose proof (poller_again ev ev' b w servers current Hs Hf Ht Ha) as Hrep.
  by rewrite Hp in Hrep.
Qed.

Lemma poller_unorderable_witness :
  let r := JObj [("name", JStr "a")] in
  let r' := JObj [("name", JInt 5)] in
  let ev := Env (Status 200 (Some (JArr [r; r']))) WriteOk in
  let b := Bot true (Some 7) ∅ ∅ in
  poller ev b (World NoFile [])
  = (Raised TypeError,
     Bot true (Some 7) {[ [AStr "a"; AStr ""; ANum 0]; [ANum 5; AStr ""; ANum 0] ]} ∅,
     World NoFile []).
Proof.
  intros r r' ev b.
  refine (proj1 (poller_unorderable ev b (World NoFile []) (JArr [r; r']) _ TypeError
                   eq_refl eq_refl _ _)).
  - vm_compute. reflexivity.
  - vm_compute. reflexivity.
Defined.

(** ** The state file across cycles and restarts *)

Section restart_facts.

Lemma mapM_Raise {A B} (f : A -> result B) (l : list A) (x : A) :
  x ∈ l -> is_ok (f x) = false -> is_ok (mapM f l) = false.
Proof.
  induction l as [|y l IH]; [by intros ?%elem_of_nil|].
  intros [->|Hx]%elem_of_cons Hf; simpl.
  - by destruct (f y).
  - destruct (f y); [|done]. simpl.
    specialize (IH Hx Hf). by destruct (mapM f l).
Qed.

Lemma save_state_ok_load (S : gset pytuple) (f : file) :
  storable S = true -> load_state (save_state S WriteOk f) = S.
Proof.
  unfold storable. destruct (sorted S) as [l|] eqn:Hl; [|done]. intros Hd.
  rewrite (save_state_written _ _ _ Hl Hd). by apply load_written.
Qed.

End restart_facts.

(** X9. While writes succeed and the tracked keys can be written (they
    can be ordered, and no number in them has more than 4300 digits),
    every cycle keeps the state file in step with the memory: if
    [load_state] on the file gives the snapshot before the cycle, it
    gives the snapshot after it. *)
Theorem poller_keeps_stored (ev : env) (b : bot) (w : world) :
  write ev = WriteOk ->
  (forall servers current,
     fetch_servers (answer ev) = Ok servers ->
     tracked (watch_names b) servers = Ok current ->
     storable current = true) ->
  stored b w ->
  stored (poller ev b w).1.2 (poller ev b w).2.
Proof.
  intros Hw Hord Hst. unfold stored in *.
  destruct (_session b) eqn:Hs.
  2:{ by rewrite poller_no_session. }
  destruct (poller_cases ev b w Hs)
    as [(e & Hf & ->)|[(servers & e & Hf & Ht & ->)|(servers & current & Hf & Ht &
         [[_ ->]|[_ ->]])]]; simpl; try done.
  rewrite Hw. apply save_state_ok_load. by eapply Hord.
Qed.

Lemma poller_keeps_stored_witness :
  let A := JObj [("name", JStr "A"); ("public_ip", JStr "1.1.1.1"); ("port", JInt 100)] in
  let ev := Env (Status 200 (Some (JArr [A]))) WriteOk in
  let b := Bot true (Some 7) ∅ ∅ in
  let w := World NoFile [] in
  stored b w /\ stored (poller ev b w).1.2 (poller ev b w).2.
Proof.
  intros A ev b w.
  assert (stored b w) as Hst by reflexivity.
  split; [exact Hst|].
  refine (poller_keeps_stored ev b w eq_refl _ Hst).
  intros servers current [= <-] Ht.
  vm_compute in Ht. injection Ht as <-. vm_compute. reflexivity.
Defined.

(** X10. [load_state] fails soft, and all at once: a state file that is
    missing or unreadable, a document that cannot be iterated, or a
    list with a single entry that is not a sequence of hashable values
    gives the empty snapshot; otherwise the snapshot is the set of the
    entries read as tuples. *)
Theorem load_state_fail_soft (xs : list json) :
  load_state NoFile = ∅ /\
  load_state Unreadable = ∅ /\
  (forall d, is_ok (iter d) = false -> load_state (Json d) = ∅) /\
  (forall x, x ∈ xs -> is_ok (as_tuple x) = false ->
     load_state (Json (JArr xs)) = ∅) /\
  (forall ts, mapM as_tuple xs = Ok ts ->
     load_state (Json (JArr xs)) = list_to_set ts).
Proof.
  split; [done|]. split; [done|]. split; [|split].
  - intros d Hd. simpl. unfold read_keys. by destruct (iter d).
  - intros x Hx Hbad. simpl. unfold read_keys. simpl.
    pose proof (mapM_Raise as_tuple xs x Hx Hbad) as H.
    by destruct (mapM as_tuple xs).
  - intros ts Hts. simpl. unfold read_keys. simpl. by rewrite Hts.
Qed.

Lemma load_state_fail_soft_witness :
  load_state (Json (JArr [JArr [JStr "A"; JStr "1.1.1.1"; JInt 100]; JInt 3])) = ∅.
Proof.
  refine (proj1 (proj2 (proj2 (proj2 (load_state_fail_soft
            [JArr [JStr "A"; JStr "1.1.1.1"; JInt 100]; JInt 3])))) (JInt 3) _ _).
  - apply elem_of_cons. right. by left.
  - reflexivity.
Defined.

(** X11. A write that fails part-way costs the whole persisted
    snapshot.  After a cycle with a change whose dump fails the state
    file loads as the empty snapshot, so a bot started on it announces
    every tracked server again as UP, in key order, and no DOWN. *)
Theorem restart_after_failed_dump (ev : env) (b : bot) (w : world) (servers : json)
    (current : gset pytuple) :
  _session b = true ->
  fetch_servers (answer ev) = Ok servers ->
  tracked (watch_names b) servers = Ok current ->
  Snapshot current ->
  current <> _last_seen b ->
  write ev = DumpFails ->
  load_state (state_file (poller ev b w).2) = ∅ /\
  (forall ev' b0 w0,
     answer ev' = answer ev ->
     _session b0 = true ->
     watch_names b0 = watch_names b ->
     _last_seen b0 = load_state (state_file (poller ev b w).2) ->
     exists us,
       sorted current = Ok us /\
       trace (poller ev' b0 w0).2 = trace w0 ++ map (sink b0) (batch UP us) /\
       map key_of (batch UP us) = us).
Proof.
  intros Hs Hf Ht Hcur Hne Hw.
  assert (load_state (state_file (poller ev b w).2) = ∅) as Hload.
  { rewrite (poller_changed ev b w servers current) by done. simpl.
    unfold save_state. destruct (sorted_Snapshot _ Hcur) as [ks ->].
    by rewrite Hw. }
  split; [done|].
  intros ev' b0 w0 Ha Hs0 Hn0 Hl0. rewrite Hload in Hl0.
  destruct (sorted_Snapshot _ Hcur) as [us Hus]. exists us. split; [done|].
  pose proof (sorted_Snapshot_unpack _ _ Hcur Hus) as Hus3.
  split; [|by apply batch_keys].
  destruct (decide (current = ∅)) as [->|Hne0].
  - rewrite sorted_empty in Hus. injection Hus as <-.
    rewrite (poller_same ev' b0 w0 servers); [by rewrite app_nil_r|done|congruence|].
    by rewrite Hn0, Hl0.
  - rewrite (poller_changed ev' b0 w0 servers current);
      [|done|congruence|by rewrite Hn0|by rewrite Hl0].
    simpl. rewrite Hl0. unfold notify.
    rewrite difference_empty_L, Hus, announce_triples by done.
    assert (∅ ∖ current = (∅ : gset pytuple)) as ->.
    { apply set_eq. intros k. split; [by intros [? _]%elem_of_difference|].
      by intros ?%not_elem_of_empty. }
    rewrite sorted_empty. simpl. done.
Qed.

Lemma restart_after_failed_dump_witness :
  let A := JObj [("name", JStr "A"); ("public_ip", JStr "1.1.1.1"); ("port", JInt 100)] in
  let ev := Env (Status 200 (Some (JArr [A]))) DumpFails in
  let b := Bot true (Some 7) ∅ ∅ in
  load_state (state_file (poller ev b (World NoFile [])).2) = ∅.
Proof.
  intros A ev b.
  assert (Snapshot ({[ [AStr "A"; AStr "1.1.1.1"; ANum 100] ]} : gset pytuple)) as Hcur.
  { intros k Hk. apply elem_of_singleton in Hk. subst k. reflexivity. }
  assert (tracked (watch_names b) (JArr [A])
          = Ok {[ [AStr "A"; AStr "1.1.1.1"; ANum 100] ]}) as Ht
    by (vm_compute; reflexivity).
  refine (proj1 (restart_after_failed_dump ev b (World NoFile []) (JArr [A]) _
                   eq_refl eq_refl Ht Hcur _ eq_refl)).
  apply non_empty_singleton_L.
Defined.

(** ** The listing of /status *)

Section status_facts.

Lemma line_of_object (kvs : list (string * json)) :
  line_of (JObj kvs) =
    Ok (default (JStr "?") (assoc "name" kvs),
        default (JStr "?") (assoc "public_ip" kvs),
        default (JStr "?") (assoc "port" kvs),
        default (JStr "?") (assoc "map" kvs)).
Proof. reflexivity. Qed.


End status_facts.



(** * The configuration and the commands *)

Section config_facts.

Lemma assoc_dict_set_eq (k : string) (v : json) (d : list (string * json)) :
  assoc k (dict_set k v d) = Some v.
Proof.
  induction d as [|[k' v'] d IH]; simpl.
  - by rewrite String.eqb_refl.
  - destruct (String.eqb k k') eqn:E; simpl; rewrite E; [done|exact IH].
Qed.

Lemma assoc_dict_set_ne (k k' : string) (v : json) (d : list (string * json)) :
  k <> k' -> assoc k' (dict_set k v d) = assoc k' d.
Proof.
  intros Hne. induction d as [|[k0 v0] d IH]; simpl.
  - by rewrite (proj2 (String.eqb_neq k' k)).
  - destruct (String.eqb k k0) eqn:E; simpl.
    + apply String.eqb_eq in E. subst k0.
      by rewrite (proj2 (String.eqb_neq k' k)).
    + by rewrite IH.
Qed.

Lemma sorted_names_Permutation (names : gset string) :
  sorted_names names ≡ₚ elements names.
Proof. apply merge_sort_Permutation. Qed.

Lemma sorted_names_elem_of (names : gset string) (n : string) :
  n ∈ sorted_names names <-> n ∈ names.
Proof. by rewrite sorted_names_Permutation, elem_of_elements. Qed.

Lemma sorted_names_Sorted (names : gset string) :
  StronglySorted String.le (sorted_names names) /\ NoDup (sorted_names names).
Proof.
  split.
  - apply StronglySorted_merge_sort; apply _.
  - rewrite sorted_names_Permutation. apply NoDup_elements.
Qed.

Lemma mapM_hashable_JStr (l : list string) :
  mapM hashable (map JStr l) = Ok (map AStr l).
Proof. induction l as [|n l IH]; simpl; [done|]. by rewrite IH. Qed.

Lemma configured_watch_names_set (names : gset string) (d : list (string * json)) :
  configured_watch_names
    (dict_set "watch_names" (JArr (map JStr (sorted_names names))) d)
  = Ok (set_map AStr names).
Proof.
  unfold configured_watch_names. rewrite assoc_dict_set_eq. simpl.
  rewrite mapM_hashable_JStr. simpl. f_equal.
  apply set_eq. intros a. rewrite elem_of_list_to_set, elem_of_map.
  rewrite list_elem_of_fmap. split.
  - intros (n & -> & Hn). exists n. split; [done|]. by apply sorted_names_elem_of.
  - intros (n & -> & Hn). exists n. split; [done|]. by apply sorted_names_elem_of.
Qed.

Lemma configured_watch_names_frame (k : string) (v : json) (d : list (string * json)) :
  k <> "watch_names" ->
  configured_watch_names (dict_set k v d) = configured_watch_names d.
Proof.
  intros Hne. unfold configured_watch_names. by rewrite assoc_dict_set_ne.
Qed.

Lemma configured_poll_seconds_frame (k : string) (v : json) (d : list (string * json)) :
  k <> "poll_seconds" ->
  configured_poll_seconds (dict_set k v d) = configured_poll_seconds d.
Proof.
  intros Hne. unfold configured_poll_seconds. by rewrite assoc_dict_set_ne.
Qed.

Lemma persist_client (c : client) (g : client -> client) (m : message)
    (o : write_outcome) (f : file) :
  (persist c g m o f).1.2 = c \/ (persist c g m o f).1.2 = g c.
Proof. unfold persist, save_cfg. destruct o; simpl; auto. Qed.

Lemma persist_ok (c : client) (g : client -> client) (m : message) (f : file) :
  persist c g m WriteOk f = (Replied m, g c, Json (JObj (cfg c))).
Proof. reflexivity. Qed.



End config_facts.

(** X13. /setinterval never brings the interval under 5 seconds: a
    request under 5 is refused and changes nothing, neither the client
    nor the configuration file, and whatever the request and the fate
    of the write, an interval and a loop period of at least 5 stay at
    least 5; the bot core (session, channel, snapshot, filter) is never
    touched. *)
Theorem setinterval_cmd_bounds (seconds : Z) (o : write_outcome) (c : client) (f : file) :
  5 <= poll_seconds c -> 5 <= loop_seconds c ->
  5 <= poll_seconds (setinterval_cmd seconds o c f).1.2 /\
  5 <= loop_seconds (setinterval_cmd seconds o c f).1.2 /\
  core (setinterval_cmd seconds o c f).1.2 = core c /\
  (seconds < 5 -> setinterval_cmd seconds o c f = (Replied IntervalTooLow, c, f)).
Proof.
  intros Hp Hl. unfold setinterval_cmd.
  destruct (seconds <? 5) eqn:E.
  - simpl. repeat split; try done.
  - apply Z.ltb_ge in E. unfold persist, save_cfg.
    destruct o; simpl; repeat split; try done; lia.
Qed.

Lemma setinterval_cmd_bounds_witness :
  let c := Client (Bot true None ∅ ∅) default_cfg 15 15 in
  setinterval_cmd 4 WriteOk c NoFile = (Replied IntervalTooLow, c, NoFile).
Proof.
  intros c.
  refine (proj2 (proj2 (proj2 (setinterval_cmd_bounds 4 WriteOk c NoFile _ _))) _);
    simpl; lia.
Defined.

(** X14. An accepted /setinterval whose write succeeds sets the
    interval of the client and of the running loop, and the
    configuration file it leaves gives the same interval to the next
    start; no other setting of the configuration changes. *)
Theorem setinterval_cmd_saved (seconds : Z) (c : client) (f : file) :
  5 <= seconds ->
  exists c',
    setinterval_cmd seconds WriteOk c f
    = (Replied (IntervalSet seconds), c', Json (JObj (cfg c'))) /\
    poll_seconds c' = seconds /\ loop_seconds c' = seconds /\
    (exists d, load_cfg (Json (JObj (cfg c'))) = JObj d /\
               configured_poll_seconds d = Ok seconds) /\
    (forall k, k <> "poll_seconds" -> assoc k (cfg c') = assoc k (cfg c)).
Proof.
  intros Hs. unfold setinterval_cmd.
  rewrite (proj2 (Z.ltb_ge seconds 5)) by done.
  rewrite persist_ok. simpl.
  exists (Client (core c) (dict_set "poll_seconds" (JInt seconds) (cfg c))
                 seconds seconds).
  split; [reflexivity|]. simpl.
  split; [done|]. split; [done|]. split.
  - eexists. split; [reflexivity|].
    unfold configured_poll_seconds. by rewrite assoc_dict_set_eq.
  - intros k Hk. apply assoc_dict_set_ne. congruence.
Qed.

Lemma setinterval_cmd_saved_witness :
  exists c',
    setinterval_cmd 30 WriteOk (Client (Bot true None ∅ ∅) default_cfg 15 15) NoFile
    = (Replied (IntervalSet 30), c', Json (JObj (cfg c'))) /\
    poll_seconds c' = 30.
Proof.
  destruct (setinterval_cmd_saved 30 (Client (Bot true None ∅ ∅) default_cfg 15 15)
              NoFile ltac:(lia)) as (c' & H1 & H2 & _).
  exists c'. split; [exact H1|exact H2].
Defined.



(** ** /watch *)

(** X16. /watch changes nothing unless it is asked to add or to remove
    a name that is not empty: for any other action (whatever the
    case of its letters), or with no name, the client and the
    configuration file stay as they are and a reply is given. *)
Theorem watch_cmd_guards (action : string) (name : option string) (o : write_outcome)
    (c : client) (f : file) :
  (lower action <> "add" /\ lower action <> "remove") \/
  name = None \/ name = Some "" \/ lower action = "list" ->
  (watch_cmd action name o c f).1.2 = c /\
  (watch_cmd action name o c f).2 = f /\
  exists m, (watch_cmd action name o c f).1.1 = Replied m.
Proof.
  intros H. unfold watch_cmd.
  destruct (String.eqb (lower action) "list") eqn:El; [simpl; eauto|].
  destruct name as [n|]; [|simpl; eauto].
  destruct (String.eqb n "") eqn:En; [simpl; eauto|].
  destruct (String.eqb (lower action) "add") eqn:Ea.
  { apply String.eqb_eq in Ea. apply String.eqb_neq in En, El.
    destruct H as [[? _]|[?|[?|?]]]; congruence. }
  destruct (String.eqb (lower action) "remove") eqn:Er.
  { apply String.eqb_eq in Er. apply String.eqb_neq in En, El.
    destruct H as [[_ ?]|[?|[?|?]]]; congruence. }
  simpl. eauto.
Qed.

Lemma watch_cmd_guards_witness :
  let c := Client (Bot true None ∅ {[ "A" ]}) default_cfg 15 15 in
  (watch_cmd "Add" None WriteOk c NoFile).1.2 = c /\
  (watch_cmd "purge" (Some "A") WriteOk c NoFile).1.2 = c.
Proof.
  intros c. split.
  - refine (proj1 (watch_cmd_guards "Add" None WriteOk c NoFile _)).
    right. by left.
  - refine (proj1 (watch_cmd_guards "purge" (Some "A") WriteOk c NoFile _)).
    left. split; vm_compute; discriminate.
Defined.

(** X17. /watch list replies with the names of the filter, each once,
    in increasing order. *)
Theorem watch_cmd_list (action : string) (name : option string) (o : write_outcome)
    (c : client) (f : file) :
  lower action = "list" ->
  exists l,
    watch_cmd action name o c f = (Replied (Filters l), c, f) /\
    StronglySorted String.le l /\ NoDup l /\
    (forall n, n ∈ l <-> n ∈ watch_names (core c)).
Proof.
  intros H. unfold watch_cmd. rewrite H. simpl.
  exists (sorted_names (watch_names (core c))). split; [done|].
  split; [apply sorted_names_Sorted|]. split; [apply sorted_names_Sorted|].
  intros n. apply sorted_names_elem_of.
Qed.

Lemma watch_cmd_list_witness :
  exists l,
    watch_cmd "LIST" None WriteOk
      (Client (Bot true None ∅ {[ "b"; "a" ]}) default_cfg 15 15) NoFile
    = (Replied (Filters l), Client (Bot true None ∅ {[ "b"; "a" ]}) default_cfg 15 15,
       NoFile) /\
    StronglySorted String.le l.
Proof.
  destruct (watch_cmd_list "LIST" None WriteOk
              (Client (Bot true None ∅ {[ "b"; "a" ]}) default_cfg 15 15) NoFile
              ltac:(vm_compute; reflexivity)) as (l & H1 & H2 & _).
  exists l. split; [exact H1|exact H2].
Defined.

(** X18. /watch add puts the name in the filter and /watch remove takes
    it out, whether or not the configuration can be written, and
    neither touches the session, the channel or the snapshot; adding a
    name that was not in the filter and removing it again gives the
    filter back. *)
Theorem watch_cmd_add_remove (add remove n : string) (o1 o2 : write_outcome)
    (c : client) (f : file) :
  lower add = "add" -> lower remove = "remove" -> n <> "" ->
  let r1 := watch_cmd add (Some n) o1 c f in
  let r2 := watch_cmd remove (Some n) o2 r1.1.2 r1.2 in
  watch_names (core r1.1.2) = {[ n ]} ∪ watch_names (core c) /\
  watch_names (core r2.1.2) = watch_names (core c) ∖ {[ n ]} /\
  (n ∉ watch_names (core c) -> watch_names (core r2.1.2) = watch_names (core c)) /\
  _last_seen (core r2.1.2) = _last_seen (core c) /\
  _channel (core r2.1.2) = _channel (core c) /\
  _session (core r2.1.2) = _session (core c).
Proof.
  intros Ha Hr Hn r1 r2.
  assert (r1 = persist (with_names c ({[ n ]} ∪ watch_names (core c)))
                 (fun c' => c') (AddedFilter n) o1 f) as H1.
  { unfold r1, watch_cmd. rewrite Ha. simpl.
    by rewrite (proj2 (String.eqb_neq n "")). }
  assert (r1.1.2 = with_names c ({[ n ]} ∪ watch_names (core c))) as Hc1.
  { rewrite H1. by destruct (persist_client (with_names c ({[ n ]} ∪ watch_names (core c)))
                              (fun c' => c') (AddedFilter n) o1 f). }
  assert (r2.1.2 = with_names r1.1.2 (watch_names (core r1.1.2) ∖ {[ n ]})) as Hc2.
  { unfold r2, watch_cmd. rewrite Hr. simpl.
    rewrite (proj2 (String.eqb_neq n "")) by done.
    by destruct (persist_client (with_names r1.1.2 (watch_names (core r1.1.2) ∖ {[ n ]}))
                   (fun c' => c') (RemovedFilter n) o2 r1.2). }
  rewrite Hc2, Hc1. simpl.
  assert (({[ n ]} ∪ watch_names (core c)) ∖ {[ n ]} = watch_names (core c) ∖ {[ n ]})
    as Hdiff.
  { apply set_eq. intros x.
    rewrite !elem_of_difference, elem_of_union, elem_of_singleton.
    split; [intros [[?|?] ?]; [done|by split]|intros [? ?]; split; [by right|done]]. }
  split; [done|]. split; [done|]. split; [|done].
  intros Hnot. rewrite Hdiff. apply set_eq. intros x.
  rewrite elem_of_difference, elem_of_singleton.
  split; [by intros [? _]|]. intros Hx. split; [done|]. by intros ->.
Qed.

Lemma watch_cmd_add_remove_witness :
  let c := Client (Bot true None ∅ {[ "A" ]}) default_cfg 15 15 in
  watch_names (core (watch_cmd "ADD" (Some "B") OpenFails c NoFile).1.2)
  = {[ "B" ]} ∪ {[ "A" ]}.
Proof.
  intros c.
  refine (proj1 (watch_cmd_add_remove "ADD" "remove" "B" OpenFails WriteOk c NoFile
                   _ _ _)).
  - vm_compute. reflexivity.
  - vm_compute. reflexivity.
  - discriminate.
Defined.

(** X19. The configuration mirrors the client under every command: if
    the filter and the interval that [WatcherBot.__init__] would read
    from the configuration are those of the client, they still are
    after /setinterval, /watch, /usehere and /clearchannel, whatever
    their arguments and whether the write succeeds or fails. *)
Theorem commands_keep_mirrored (c : client) (f : file) (o : write_outcome) :
  mirrored c ->
  (forall seconds, mirrored (setinterval_cmd seconds o c f).1.2) /\
  (forall action name, mirrored (watch_cmd action name o c f).1.2) /\
  (forall is_text ch, mirrored (usehere_cmd is_text ch o c f).1.2) /\
  mirrored (clearchannel_cmd o c f).1.2.
Proof.
  intros [Hw Hp].
  assert (forall ch, mirrored (with_channel c ch)) as Hch.
  { intros ch. split; simpl.
    - by rewrite configured_watch_names_frame.
    - by rewrite configured_poll_seconds_frame. }
  assert (forall names, mirrored (with_names c names)) as Hnames.
  { intros names. split; simpl.
    - apply configured_watch_names_set.
    - by rewrite configured_poll_seconds_frame. }
  split; [|split; [|split]].
  - intros seconds. unfold setinterval_cmd.
    destruct (seconds <? 5); [by split|].
    unfold persist, save_cfg. destruct o; simpl; (split; simpl;
      [by rewrite configured_watch_names_frame
      |unfold configured_poll_seconds; by rewrite assoc_dict_set_eq]).
  - intros action name. unfold watch_cmd.
    destruct (String.eqb (lower action) "list"); [by split|].
    destruct name as [n|]; [|by split].
    destruct (String.eqb n ""); [by split|].
    destruct (String.eqb (lower action) "add").
    { by destruct (persist_client (with_names c ({[ n ]} ∪ watch_names (core c)))
                     (fun c' => c') (AddedFilter n) o f) as [-> | ->]. }
    destruct (String.eqb (lower action) "remove"); [|by split].
    by destruct (persist_client (with_names c (watch_names (core c) ∖ {[ n ]}))
                   (fun c' => c') (RemovedFilter n) o f) as [-> | ->].
  - intros is_text ch. unfold usehere_cmd. destruct is_text; simpl; [|by split].
    by destruct (persist_client (with_channel c (Some ch)) (fun c' => c')
                   (PostHere ch) o f) as [-> | ->].
  - unfold clearchannel_cmd.
    by destruct (persist_client (with_channel c None) (fun c' => c')
                   PostingDisabled o f) as [-> | ->].
Qed.

Lemma commands_keep_mirrored_witness :
  let c := Client (Bot true None ∅ ∅) default_cfg 15 15 in
  mirrored c /\ mirrored (watch_cmd "add" (Some "A") DumpFails c NoFile).1.2.
Proof.
  intros c.
  assert (mirrored c) as Hm by (split; vm_compute; reflexivity).
  split; [exact Hm|].
  exact (proj1 (proj2 (commands_keep_mirrored c NoFile DumpFails Hm)) "add" (Some "A")).
Defined.

(** X20. The filter survives a restart.  After /watch add or /watch
    remove with a name, when the write succeeds, the configuration
    file parses to the configuration of the client, and the set that
    [WatcherBot.__init__] builds from it is the filter of the client. *)
Theorem watch_cmd_saved (action n : string) (c : client) (f : file) :
  lower action = "add" \/ lower action = "remove" -> n <> "" ->
  let r := watch_cmd action (Some n) WriteOk c f in
  saved r.1.2 r.2 /\
  (exists d, load_cfg r.2 = JObj d /\
     configured_watch_names d = Ok (set_map AStr (watch_names (core r.1.2)))) /\
  (forall k, k <> "watch_names" -> assoc k (cfg r.1.2) = assoc k (cfg c)).
Proof.
  intros Ha Hn r. unfold r, watch_cmd.
  assert (String.eqb (lower action) "list" = false) as ->.
  { apply String.eqb_neq. destruct Ha as [-> | ->]; discriminate. }
  rewrite (proj2 (String.eqb_neq n "")) by done.
  destruct Ha as [-> | ->]; simpl; rewrite ?persist_ok; simpl.
  - split; [done|]. split.
    + eexists. split; [reflexivity|]. apply configured_watch_names_set.
    + intros k Hk. apply assoc_dict_set_ne. congruence.
  - split; [done|]. split.
    + eexists. split; [reflexivity|]. apply configured_watch_names_set.
    + intros k Hk. apply assoc_dict_set_ne. congruence.
Qed.

Lemma watch_cmd_saved_witness :
  let c := Client (Bot true None ∅ ∅) default_cfg 15 15 in
  saved (watch_cmd "add" (Some "A") WriteOk c NoFile).1.2
        (watch_cmd "add" (Some "A") WriteOk c NoFile).2.
Proof.
  intros c.
  refine (proj1 (watch_cmd_saved "add" "A" c NoFile _ _)).
  - left. vm_compute. reflexivity.
  - discriminate.
Defined.

(** ** The post channel *)

Section channel_facts.

(** What a cycle adds to the effects: one warning, or events through
    the sink of the bot. *)
Lemma poller_effects (ev : env) (b : bot) (w : world) :
  exists tail,
    trace (poller ev b w).2 = trace w ++ tail /\
    Forall (fun x => (exists e, x = LogWarning e) \/ (exists e, x = sink b e)) tail.
Proof.
  destruct (_session b) eqn:Hs.
  2:{ rewrite poller_no_session by done. exists []. by rewrite app_nil_r. }
  destruct (poller_cases ev b w Hs)
    as [(e & _ & ->)|[(servers & e & _ & _ & ->)|(servers & current & _ & _ &
         [[_ ->]|[_ ->]])]]; simpl.
  - exists [LogWarning e]. split; [done|]. constructor; [left; eauto|constructor].
  - exists []. by rewrite app_nil_r.
  - exists []. by rewrite app_nil_r.
  - destruct (notify_spec (sink b) (current ∖ _last_seen b)
                (_last_seen b ∖ current) (trace w)) as (us & ds & -> & _).
    eexists. split; [done|]. apply Forall_forall.
    intros x (e & -> & _)%list_elem_of_fmap. right. eauto.
Qed.

Lemma on_ready_channel_id (lookup : Z -> option bool) (c : client) (ch : Z) :
  assoc "channel_id" (cfg c) = Some (JInt ch) ->
  on_ready lookup c =
    if ch =? 0 then (Ok c, [LoggedIn])
    else match lookup ch with
         | Some true =>
             (Ok (Client (Bot (_session (core c)) (Some ch) (_last_seen (core c))
                              (watch_names (core c)))
                         (cfg c) (poll_seconds c) (loop_seconds c)),
              [LoggedIn; PostingToChannel ch])
         | _ => (Ok c, [LoggedIn; SavedChannelNotFound])
         end.
Proof.
  intros H. unfold on_ready. rewrite H. simpl.
  destruct (ch =? 0) eqn:E; simpl; [done|].
  rewrite E. by destruct (lookup ch) as [[]|].
Qed.

End channel_facts.

(** X21. The channel commands decide where a cycle reports.  After
    /clearchannel every effect a cycle adds is a log record, none is
    sent; after /usehere in a text channel every event a cycle emits is
    sent to that channel; both hold even when the configuration could
    not be written.  /usehere in a channel that is not a text channel
    changes nothing. *)
Theorem channel_commands_route_events (o : write_outcome) (c : client) (f : file)
    (ev : env) (w : world) :
  (exists tail,
     trace (poller ev (core (clearchannel_cmd o c f).1.2) w).2 = trace w ++ tail /\
     Forall (fun x => is_log x = true) tail) /\
  (forall ch, exists tail,
     trace (poller ev (core (usehere_cmd true ch o c f).1.2) w).2 = trace w ++ tail /\
     Forall (fun x => (exists e, x = LogWarning e) \/ (exists e, x = Send ch e)) tail) /\
  (forall ch, usehere_cmd false ch o c f = (Replied NotTextChannel, c, f)).
Proof.
  split; [|split; [|done]].
  - assert ((clearchannel_cmd o c f).1.2 = with_channel c None) as ->.
    { unfold clearchannel_cmd.
      by destruct (persist_client (with_channel c None) (fun c' => c')
                     PostingDisabled o f). }
    destruct (poller_effects ev (core (with_channel c None)) w) as (tail & -> & Ht).
    exists tail. split; [done|]. eapply Forall_impl; [exact Ht|].
    intros x [[e ->]|[e ->]]; done.
  - intros ch.
    assert ((usehere_cmd true ch o c f).1.2 = with_channel c (Some ch)) as ->.
    { unfold usehere_cmd. simpl.
      by destruct (persist_client (with_channel c (Some ch)) (fun c' => c')
                     (PostHere ch) o f). }
    destruct (poller_effects ev (core (with_channel c (Some ch))) w) as (tail & -> & Ht).
    exists tail. split; [done|]. eapply Forall_impl; [exact Ht|].
    intros x [[e ->]|[e ->]]; [left|right]; eauto.
Qed.

(** X22. The channel survives a restart, when it still exists.  After
    /usehere in a text channel whose id is not 0, with a write that
    succeeds, a client started on the configuration file gets that
    channel back at [on_ready] if the channel is still found as a text
    channel, and otherwise stays without a channel and logs the
    warning; after /clearchannel it stays without a channel and looks
    nothing up. *)
Theorem channel_survives_restart (ch : Z) (c c0 : client) (f : file)
    (lookup : Z -> option bool) :
  ch <> 0 ->
  (load_cfg (usehere_cmd true ch WriteOk c f).2 = JObj (cfg c0) ->
   (lookup ch = Some true ->
    on_ready lookup c0
    = (Ok (Client (Bot (_session (core c0)) (Some ch) (_last_seen (core c0))
                       (watch_names (core c0)))
                  (cfg c0) (poll_seconds c0) (loop_seconds c0)),
       [LoggedIn; PostingToChannel ch])) /\
   (lookup ch <> Some true ->
    on_ready lookup c0 = (Ok c0, [LoggedIn; SavedChannelNotFound]))) /\
  (load_cfg (clearchannel_cmd WriteOk c f).2 = JObj (cfg c0) ->
   on_ready lookup c0 = (Ok c0, [LoggedIn])).
Proof.
  intros Hch. split.
  - unfold usehere_cmd. simpl. rewrite ?persist_ok. simpl. intros [= Hcfg].
    assert (assoc "channel_id" (cfg c0) = Some (JInt ch)) as Hid
      by (rewrite <- Hcfg; apply assoc_dict_set_eq).
    rewrite (on_ready_channel_id lookup c0 ch Hid).
    rewrite (proj2 (Z.eqb_neq ch 0)) by done.
    split; [by intros ->|]. intros Hl. by destruct (lookup ch) as [[]|].
  - unfold clearchannel_cmd. rewrite ?persist_ok. simpl. intros [= Hcfg].
    assert (assoc "channel_id" (cfg c0) = Some (JInt 0)) as Hid
      by (rewrite <- Hcfg; apply assoc_dict_set_eq).
    by rewrite (on_ready_channel_id lookup c0 0 Hid).
Qed.

Lemma channel_survives_restart_witness :
  let c := Client (Bot true None ∅ ∅) default_cfg 15 15 in
  let c0 := Client (Bot false None ∅ ∅) (dict_set "channel_id" (JInt 42) default_cfg) 15 15 in
  on_ready (fun id => if id =? 42 then Some true else None) c0
  = (Ok (Client (Bot false (Some 42) ∅ ∅) (cfg c0) 15 15),
     [LoggedIn; PostingToChannel 42]).
Proof.
  intros c c0.
  refine (proj1 (proj1 (channel_survives_restart 42 c c0 NoFile
                          (fun id => if id =? 42 then Some true else None) _) _) _).
  - lia.
  - reflexivity.
  - reflexivity.
Defined.

(** ** Main *)

Section strip_facts.






End strip_facts.






(** X25. /where tells where the next cycle reports: when it answers
    with a channel, every event the cycle emits is sent to that
    channel, and when it answers that no channel is set, every effect
    of the cycle is a log record.  It answers with the channel of the
    last /usehere and with no channel after /clearchannel, even when
    their write failed. *)
Theorem where_cmd_routes (c : client) (o : write_outcome) (f : file) (ev : env)
    (w : world) :
  (forall ch, where_cmd c = PostingTo ch ->
     exists tail,
       trace (poller ev (core c) w).2 = trace w ++ tail /\
       Forall (fun x => (exists e, x = LogWarning e) \/ (exists e, x = Send ch e)) tail) /\
  (where_cmd c = NoPostChannel ->
     exists tail,
       trace (poller ev (core c) w).2 = trace w ++ tail /\
       Forall (fun x => is_log x = true) tail) /\
  (forall ch, where_cmd (usehere_cmd true ch o c f).1.2 = PostingTo ch) /\
  where_cmd (clearchannel_cmd o c f).1.2 = NoPostChannel.
Proof.
  split; [|split; [|split]].
  - intros ch Hw. unfold where_cmd in Hw.
    destruct (_channel (core c)) as [ch'|] eqn:Hc; [|done]. injection Hw as ->.
    destruct (poller_effects ev (core c) w) as (tail & -> & Ht).
    exists tail. split; [done|]. eapply Forall_impl; [exact Ht|].
    unfold sink. rewrite Hc. intros x [[e ->]|[e ->]]; [left|right]; eauto.
  - intros Hw. unfold where_cmd in Hw.
    destruct (_channel (core c)) as [ch'|] eqn:Hc; [done|].
    destruct (poller_effects ev (core c) w) as (tail & -> & Ht).
    exists tail. split; [done|]. eapply Forall_impl; [exact Ht|].
    unfold sink. rewrite Hc. intros x [[e ->]|[e ->]]; done.
  - intros ch. unfold usehere_cmd. simpl.
    by destruct (persist_client (with_channel c (Some ch)) (fun c' => c')
                   (PostHere ch) o f) as [-> | ->].
  - unfold clearchannel_cmd.
    by destruct (persist_client (with_channel c None) (fun c' => c')
                   PostingDisabled o f) as [-> | ->].
Qed.

(** ** /status without a filter *)

Section listing_facts.

Lemma mapM_line_of_objects (l : list json) :
  (forall s, s ∈ l -> exists kvs, s = JObj kvs) ->
  exists lines, mapM line_of l = Ok lines /\ length lines = length l.
Proof.
  induction l as [|s l IH]; intros H.
  - by exists [].
  - destruct (H s ltac:(by left)) as [kvs ->].
    destruct IH as (ls & Hls & Hlen); [intros s' Hs'; apply H; by right|].
    simpl. rewrite Hls. simpl. eexists. split; [done|]. simpl. by rewrite Hlen.
Qed.

Lemma line_of_not_object (s : json) :
  (forall kvs, s <> JObj kvs) -> line_of s = Raise AttributeError.
Proof. destruct s; try done. intros H. by destruct (H kvs). Qed.

Lemma mapM_line_of_Raise (l : list json) (e : exn) :
  mapM line_of l = Raise e -> e = AttributeError.
Proof.
  induction l as [|s l IH]; simpl; [done|].
  destruct s as [| | | | |kvs]; simpl; try (by intros [= <-]).
  destruct (mapM line_of l) as [ls|e']; simpl; [done|].
  intros [= <-]. by apply IH.
Qed.

End listing_facts.

(** X26. What /status lists without a filter.  With an empty filter
    and a fetched list, the reply is "No servers found." for the empty
    list, a listing with one line per entry, in the fetched order, when
    every entry is an object (a missing field shows as "?"), and the
    AttributeError as soon as one entry is not an object. *)
Theorem status_cmd_unfiltered (r : response) (b : bot) (l : list json) :
  watch_names b = ∅ ->
  fetch_servers r = Ok (JArr l) ->
  (l = [] -> status_cmd r b = NoServersFound) /\
  (l <> [] -> (forall s, s ∈ l -> exists kvs, s = JObj kvs) ->
   exists lines,
     status_cmd r b = Listing lines /\
     mapM line_of l = Ok lines /\
     length lines = length l) /\
  (forall s, s ∈ l -> (forall kvs, s <> JObj kvs) ->
     status_cmd r b = Error AttributeError) /\
  line_of (JObj []) = Ok (JStr "?", JStr "?", JStr "?", JStr "?").
Proof.
  intros Hn Hf. unfold status_cmd, watched. rewrite Hf, Hn. simpl.
  rewrite bool_decide_eq_true_2 by done. simpl.
  split; [by intros ->|]. split; [|split; [|done]].
  - intros Hne Hobj. destruct l as [|s0 l']; [done|].
    destruct (mapM_line_of_objects (s0 :: l') Hobj) as (lines & Hl & Hlen).
    exists lines. unfold _format_servers.
    change (negb (truthy (JArr (s0 :: l')))) with false.
    change (iter (JArr (s0 :: l'))) with (Ok (A:=list json) (s0 :: l')).
    cbn [bind]. rewrite Hl. by cbn [bind].
  - intros s Hs Hbad. destruct l as [|s0 l']; [by apply elem_of_nil in Hs|].
    unfold _format_servers.
    change (negb (truthy (JArr (s0 :: l')))) with false.
    change (iter (JArr (s0 :: l'))) with (Ok (A:=list json) (s0 :: l')).
    cbn [bind].
    pose proof (mapM_Raise line_of (s0 :: l') s Hs) as Hr.
    rewrite (line_of_not_object s Hbad) in Hr. specialize (Hr eq_refl).
    destruct (mapM line_of (s0 :: l')) as [ls|e] eqn:E; [done|].
    apply mapM_line_of_Raise in E. subst e. done.
Qed.

Lemma status_cmd_unfiltered_witness :
  let A := JObj [("name", JStr "A"); ("port", JInt 100)] in
  let b := Bot true None ∅ ∅ in
  exists lines,
    status_cmd (Status 200 (Some (JArr [A]))) b = Listing lines /\
    length lines = 1%nat.
Proof.
  intros A b.
  destruct (proj1 (proj2 (status_cmd_unfiltered (Status 200 (Some (JArr [A]))) b [A]
                            eq_refl eq_refl)) ltac:(discriminate))
    as (lines & Hl & _ & Hlen).
  { intros s Hs. apply elem_of_cons in Hs as [->|Hs]; [by eexists|].
    by apply elem_of_nil in Hs. }
  exists lines. split; [exact Hl|exact Hlen].
Defined.

Lemma where_cmd_routes_witness :
  let c := Client (Bot true (Some 7) ∅ ∅) default_cfg 15 15 in
  let A := JObj [("name", JStr "A"); ("public_ip", JStr "1.1.1.1"); ("port", JInt 100)] in
  where_cmd c = PostingTo 7 /\
  exists tail,
    trace (poller (Env (Status 200 (Some (JArr [A]))) WriteOk) (core c) (World NoFile [])).2
    = tail /\
    Forall (fun x => (exists e, x = LogWarning e) \/ (exists e, x = Send 7 e)) tail.
Proof.
  intros c A.
  assert (where_cmd c = PostingTo 7) as Hw by reflexivity.
  split; [exact Hw|].
  destruct (proj1 (where_cmd_routes c WriteOk NoFile
                     (Env (Status 200 (Some (JArr [A]))) WriteOk) (World NoFile [])) 7 Hw)
    as (tail & Ht & Hall).
  exists tail. split; [exact Ht|exact Hall].
Defined.
